(** * atkinson.dlrn.http_data: a shallow embedding and its properties

    The module is a client of the DLRN build-metadata API.  It issues HTTP
    GETs, parses YAML and CSV payloads and reshapes them into dictionaries.

    Conventions of the embedding.
    - A Python [str] is a Rocq [string]; every character stands for one code
      point below 256.
    - Dynamically typed values (what the YAML parser returns, what a
      dictionary cell holds) are [pyval] trees: no two places of a parsed
      document hold one and the same list or mapping object.
    - A call that may raise returns a [res]: [Ok v] or [Raise e].
    - The logger is the list of records it has received, oldest first; a
      function that takes a logger returns the extended logger.
    - A method of [DlrnHttpData] is a function from the object before the call
      to the object after the call and the result; what a method changed
      before it raised stays changed.
    - The network ([requests.get]), the YAML parser ([toolchest.yaml.parse])
      and Python's [str()] on parsed values are parameters. *)

From Stdlib Require Import ZArith NArith Ascii String List Bool Lia.
From stdpp Require Import base option list gmap strings fin_maps.

#[local] Set Warnings "-register-all".
Local Open Scope string_scope.
Local Open Scope list_scope.

(** ** Results and exceptions *)

Inductive exn : Type :=
| TypeError
| KeyError
| IndexError
| AttributeError
| CsvError            (* csv.Error *)
| YAMLError           (* whatever yaml.parse raises *)
| RequestException.   (* requests exceptions other than ConnectionError *)

Inductive res (A : Type) : Type :=
| Ok (v : A)
| Raise (e : exn).
Arguments Ok {A} v.
Arguments Raise {A} e.

Definition res_bind {A B} (r : res A) (k : A -> res B) : res B :=
  match r with
  | Ok v => k v
  | Raise e => Raise e
  end.

Declare Scope res_scope.
Delimit Scope res_scope with res.
Notation "'let?' x ':=' r 'in' k" := (res_bind r (fun x => k))
  (at level 10, x name, r at level 100, k at level 200) : res_scope.
Local Open Scope res_scope.

(** ** Python values *)

Inductive pyval : Type :=
| PNone
| PBool (b : bool)
| PInt (z : Z)
| PStr (s : string)
| PList (l : list pyval)
| PDict (d : list (pyval * pyval)).

(** Key lookup in a parsed mapping.  A [str] key only equals a [str] key; the
    integer key [0] also equals [False]. *)
Fixpoint dict_get_str (k : string) (d : list (pyval * pyval)) : option pyval :=
  match d with
  | [] => None
  | (PStr k', v) :: d' => if String.eqb k k' then Some v else dict_get_str k d'
  | _ :: d' => dict_get_str k d'
  end.

Fixpoint dict_get_int (i : Z) (d : list (pyval * pyval)) : option pyval :=
  match d with
  | [] => None
  | (PInt j, v) :: d' => if Z.eqb i j then Some v else dict_get_int i d'
  | (PBool b, v) :: d' =>
      if Z.eqb i (if b then 1 else 0)%Z then Some v else dict_get_int i d'
  | _ :: d' => dict_get_int i d'
  end.

(** *** Strings *)

Definition str_slice (i j : nat) (s : string) : string := substring i (j - i) s.

Definition list_slice {A} (i j : nat) (l : list A) : list A := take (j - i) (drop i l).

Fixpoint str_prefixb (p s : string) : bool :=
  match p, s with
  | EmptyString, _ => true
  | String a p', String b s' => Ascii.eqb a b && str_prefixb p' s'
  | String _ _, EmptyString => false
  end.

(** [sub in s] on two strings. *)
Fixpoint str_contains (sub s : string) : bool :=
  str_prefixb sub s ||
  match s with
  | EmptyString => false
  | String _ s' => str_contains sub s'
  end.

Fixpoint str_chars (s : string) : list pyval :=
  match s with
  | EmptyString => []
  | String c s' => PStr (String c EmptyString) :: str_chars s'
  end.

Fixpoint str_map (f : ascii -> ascii) (s : string) : string :=
  match s with
  | EmptyString => EmptyString
  | String c s' => String (f c) (str_map f s')
  end.

(** [s.replace(' ', '_')] *)
Definition replace_space (s : string) : string :=
  str_map (fun c => if Ascii.eqb c " " then "_"%char else c) s.

(** The characters [str.split()] splits at, among the code points below 256:
    TAB, LF, VT, FF, CR, FS, GS, RS, US, SPACE, NEL and NBSP. *)
Definition is_space (c : ascii) : bool :=
  let n := N_of_ascii c in
  ((9 <=? n) && (n <=? 13) || (28 <=? n) && (n <=? 32)
   || (n =? 133) || (n =? 160))%N.

Definition cons_nonempty (t : string) (ts : list string) : list string :=
  match t with
  | EmptyString => ts
  | _ => t :: ts
  end.

(** [split_run sep s] is the token [s] starts with and the tokens after it;
    tokens are maximal runs of characters that are not separators. *)
Fixpoint split_run (sep : ascii -> bool) (s : string) : string * list string :=
  match s with
  | EmptyString => (EmptyString, [])
  | String c s' =>
      let '(t, ts) := split_run sep s' in
      if sep c then (EmptyString, cons_nonempty t ts) else (String c t, ts)
  end.

Definition split_on (sep : ascii -> bool) (s : string) : list string :=
  let '(t, ts) := split_run sep s in cons_nonempty t ts.

(** [s.split()] *)
Definition py_split (s : string) : list string := split_on is_space s.

(** *** Subscripts, membership, concatenation *)

(** [v[i:j]] for non-negative literal bounds.  Slicing a mapping raises
    TypeError before Python 3.12 (a slice is not hashable). *)
Definition py_slice (v : pyval) (i j : nat) : res pyval :=
  match v with
  | PStr s => Ok (PStr (str_slice i j s))
  | PList l => Ok (PList (list_slice i j l))
  | _ => Raise TypeError
  end.

(** [v[k]] for a [str] key [k]. *)
Definition py_getitem_str (v : pyval) (k : string) : res pyval :=
  match v with
  | PDict d =>
      match dict_get_str k d with
      | Some x => Ok x
      | None => Raise KeyError
      end
  | _ => Raise TypeError
  end.

(** [v.get(k)] for a [str] key [k]. *)
Definition py_get (v : pyval) (k : string) : res pyval :=
  match v with
  | PDict d => Ok (default PNone (dict_get_str k d))
  | _ => Raise AttributeError
  end.

(** [v[0]] *)
Definition py_getitem_0 (v : pyval) : res pyval :=
  match v with
  | PStr (String c _) => Ok (PStr (String c EmptyString))
  | PStr EmptyString => Raise IndexError
  | PList (x :: _) => Ok x
  | PList [] => Raise IndexError
  | PDict d =>
      match dict_get_int 0 d with
      | Some x => Ok x
      | None => Raise KeyError
      end
  | _ => Raise TypeError
  end.

Definition is_str (k : string) (v : pyval) : bool :=
  match v with
  | PStr s => String.eqb s k
  | _ => false
  end.

(** [k in v] for a [str] key [k]. *)
Definition py_contains_str (k : string) (v : pyval) : res bool :=
  match v with
  | PDict d => Ok (bool_decide (is_Some (dict_get_str k d)))
  | PList l => Ok (existsb (is_str k) l)
  | PStr s => Ok (str_contains k s)
  | _ => Raise TypeError
  end.

(** [s + v] for a [str] [s]. *)
Definition py_str_add (s : string) (v : pyval) : res string :=
  match v with
  | PStr t => Ok (s +:+ t)
  | _ => Raise TypeError
  end.

(** [v += t] for a [str] [t]: a new string when [v] is a string; when [v] is a
    list the list object itself is extended by the characters of [t]. *)
Definition py_iadd_str (v : pyval) (t : string) : res pyval :=
  match v with
  | PStr s => Ok (PStr (s +:+ t))
  | PList l => Ok (PList (l ++ str_chars t))
  | _ => Raise TypeError
  end.

(** ** os.path.join (posixpath) *)

Definition starts_with_sep (s : string) : bool :=
  match s with
  | String c _ => Ascii.eqb c "/"
  | EmptyString => false
  end.

Fixpoint ends_with_sep (s : string) : bool :=
  match s with
  | EmptyString => false
  | String c EmptyString => Ascii.eqb c "/"
  | String _ s' => ends_with_sep s'
  end.

Definition join_step (path b : string) : string :=
  if starts_with_sep b then b
  else if (String.eqb path "" || ends_with_sep path)%bool then path +:+ b
  else path +:+ "/" +:+ b.

Definition path_join (a : string) (p : list string) : string :=
  foldl join_step a p.

Fixpoint all_str (vs : list pyval) : option (list string) :=
  match vs with
  | [] => Some []
  | PStr s :: vs' => cons s <$> all_str vs'
  | _ => None
  end.

(** [os.path.join(a, *p)] where [a] is a [str]: TypeError unless every further
    component is a [str]. *)
Definition os_path_join (a : string) (p : list pyval) : res string :=
  match all_str p with
  | Some ss => Ok (path_join a ss)
  | None => Raise TypeError
  end.

(** ** The logger and the network *)

Inductive level : Type := WARNING | ERROR.

Definition log_record : Type := level * string.
Definition logger : Type := list log_record.

(** What [requests.get(url)] does: it returns a response, raises
    ConnectionError (whose [request] attribute the client logs), or raises
    another of its exceptions. *)
Inductive response : Type :=
| Response (status_code : Z) (text : string)
| ConnectionError (request : string)
| OtherException.

Definition network : Type := string -> response.

(** What iterating a forward-only sequence to its end gives: the items it
    yielded and, when it stopped by raising, the exception. *)
Definition stream (A : Type) : Type := list A * option exn.

(** ** The CSV reader of the standard library, excel dialect

    [csv.reader] over a list of lines: delimiter [,], quote character
    double quote, doubled quotes inside quoted fields, not strict.  A field
    longer than the field size limit raises [csv.Error], and so does a NUL in
    a line (as the reader did before Python 3.11). *)

Module csv.

Inductive reader_state : Type :=
| START_RECORD | START_FIELD | IN_FIELD | IN_QUOTED_FIELD
| QUOTE_IN_QUOTED_FIELD | EAT_CRNL.

Record ReaderObj : Type := Build_ReaderObj {
  state : reader_state;
  fields : list string;
  field : string
}.

Definition field_limit : N := 131072.

Definition with_state (st : reader_state) (r : ReaderObj) : ReaderObj :=
  {| state := st; fields := fields r; field := field r |}.

Definition parse_reset : ReaderObj :=
  {| state := START_RECORD; fields := []; field := "" |}.

Definition parse_save_field (r : ReaderObj) : ReaderObj :=
  {| state := state r; fields := fields r ++ [field r]; field := "" |}.

Definition parse_add_char (r : ReaderObj) (c : ascii) : res ReaderObj :=
  if (field_limit <=? N.of_nat (String.length (field r)))%N then Raise CsvError
  else Ok {| state := state r; fields := fields r;
             field := field r +:+ String c EmptyString |}.

Definition is_crlf (c : ascii) : bool :=
  Ascii.eqb c "010" || Ascii.eqb c "013".

Definition is_delimiter (c : ascii) : bool := Ascii.eqb c ",".
Definition is_quotechar (c : ascii) : bool := Ascii.eqb c "034".

Definition after_eol (c : option ascii) : reader_state :=
  match c with
  | None => START_RECORD
  | Some _ => EAT_CRNL
  end.

Definition is_eol (c : option ascii) : bool :=
  match c with
  | None => true
  | Some ch => is_crlf ch
  end.

(** One step of the reader; [None] is the end of a line. *)
Definition parse_process_char (r : ReaderObj) (c : option ascii) : res ReaderObj :=
  let start_field (r : ReaderObj) :=
    match c with
    | Some ch =>
        if is_crlf ch then Ok (with_state EAT_CRNL (parse_save_field r))
        else if is_quotechar ch then Ok (with_state IN_QUOTED_FIELD r)
        else if is_delimiter ch then Ok (parse_save_field r)
        else let? r' := parse_add_char r ch in Ok (with_state IN_FIELD r')
    | None => Ok (with_state START_RECORD (parse_save_field r))
    end in
  match state r with
  | START_RECORD =>
      match c with
      | None => Ok r
      | Some ch =>
          if is_crlf ch then Ok (with_state EAT_CRNL r)
          else start_field (with_state START_FIELD r)
      end
  | START_FIELD => start_field r
  | IN_FIELD =>
      if is_eol c then Ok (with_state (after_eol c) (parse_save_field r))
      else match c with
           | Some ch =>
               if is_delimiter ch
               then Ok (with_state START_FIELD (parse_save_field r))
               else parse_add_char r ch
           | None => Ok r
           end
  | IN_QUOTED_FIELD =>
      match c with
      | None => Ok r
      | Some ch =>
          if is_quotechar ch then Ok (with_state QUOTE_IN_QUOTED_FIELD r)
          else parse_add_char r ch
      end
  | QUOTE_IN_QUOTED_FIELD =>
      match c with
      | Some ch =>
          if is_quotechar ch
          then let? r' := parse_add_char r ch in Ok (with_state IN_QUOTED_FIELD r')
          else if is_delimiter ch
          then Ok (with_state START_FIELD (parse_save_field r))
          else if is_crlf ch
          then Ok (with_state EAT_CRNL (parse_save_field r))
          else let? r' := parse_add_char r ch in Ok (with_state IN_FIELD r')
      | None => Ok (with_state START_RECORD (parse_save_field r))
      end
  | EAT_CRNL =>
      match c with
      | None => Ok (with_state START_RECORD r)
      | Some ch => if is_crlf ch then Ok r else Raise CsvError
      end
  end.

Fixpoint process_line (r : ReaderObj) (line : string) : res ReaderObj :=
  match line with
  | EmptyString => Ok r
  | String c line' =>
      if Ascii.eqb c "000" then Raise CsvError
      else let? r' := parse_process_char r (Some c) in process_line r' line'
  end.

Definition at_start_record (r : ReaderObj) : bool :=
  match state r with START_RECORD => true | _ => false end.

Definition in_quoted_field (r : ReaderObj) : bool :=
  match state r with IN_QUOTED_FIELD => true | _ => false end.

(** The records of the reader: a record ends at the end of a line unless a
    quoted field is open, which then continues on the next line. *)
Fixpoint reader_records (r : ReaderObj) (lines : list string) : stream (list string) :=
  match lines with
  | [] =>
      if negb (String.eqb (field r) "") || in_quoted_field r
      then ([fields (parse_save_field r)], None)
      else ([], None)
  | line :: lines' =>
      match (let? r1 := process_line r line in parse_process_char r1 None) with
      | Raise e => ([], Some e)
      | Ok r2 =>
          if at_start_record r2
          then let '(recs, fin) := reader_records parse_reset lines' in
               (fields r2 :: recs, fin)
          else reader_records r2 lines'
      end
  end.

Definition reader (lines : list string) : stream (list string) :=
  reader_records parse_reset lines.

(** *** csv.DictReader *)

(** A cell of a row: a token, [None] for a column the row is too short for,
    and under the key [None] the list of tokens beyond the last column. *)
Inductive cell : Type :=
| CNone
| CStr (s : string)
| CRest (l : list string).

Definition dict_row (fieldnames row : list string) : gmap (option string) cell :=
  let d : gmap (option string) cell :=
    foldl (fun d kv => <[Some kv.1 := CStr kv.2]> d) ∅ (zip fieldnames row) in
  let lf := length fieldnames in
  let lr := length row in
  if (lf <? lr)%nat then <[None := CRest (drop lf row)]> d
  else foldl (fun d key => <[Some key := CNone]> d) d (drop lr fieldnames).

Definition nonempty_record (r : list string) : bool :=
  match r with [] => false | _ => true end.

(** The first record names the fields; empty records are skipped. *)
Definition DictReader (f : list string) : stream (gmap (option string) cell) :=
  match reader f with
  | ([], fin) => ([], fin)
  | (fieldnames :: recs, fin) =>
      (map (dict_row fieldnames) (List.filter nonempty_record recs), fin)
  end.

End csv.

Export csv (cell(..)).

Definition cell_value (c : cell) : pyval :=
  match c with
  | CNone => PNone
  | CStr s => PStr s
  | CRest l => PList (map PStr l)
  end.

(** [row[key]] *)
Definition row_get (row : gmap (option string) cell) (key : string) : res cell :=
  match row !! Some key with
  | Some c => Ok c
  | None => Raise KeyError
  end.

(** A cell used as a dictionary key: a list is not hashable. *)
Definition cell_key (c : cell) : res (option string) :=
  match c with
  | CNone => Ok None
  | CStr s => Ok (Some s)
  | CRest _ => Raise TypeError
  end.

(** ** Module-level functions *)

(** [_raw_fetch(url, logger)]: the text of the response, [None] otherwise. *)
Definition _raw_fetch (net : network) (url : string) (lg : logger)
  : logger * res (option string) :=
  match net url with
  | Response status_code text =>
      (lg, Ok (if (status_code =? 200)%Z then Some text else None))
  | ConnectionError request => (lg ++ [(WARNING, request)], Ok None)
  | OtherException => (lg, Raise RequestException)
  end.

(** ** The client object *)

Record DlrnHashes : Type := hashes {
  commit : pyval;
  dist : pyval;
  extended : pyval
}.

Record DlrnHttpData : Type := Build_DlrnHttpData {
  url : string;
  release : string;
  _logger : logger;
  _link_name : string;
  _commit_data : gmap string pyval
}.

(** A method: the object after the call and what the call returned. *)
Definition method (A : Type) : Type := DlrnHttpData -> DlrnHttpData * res A.

Definition ret {A} (v : A) : method A := fun self => (self, Ok v).

Definition bind {A B} (m : method A) (k : A -> method B) : method B :=
  fun self =>
    match m self with
    | (self', Ok v) => k v self'
    | (self', Raise e) => (self', Raise e)
    end.

Declare Scope method_scope.
Delimit Scope method_scope with method.
Bind Scope method_scope with method.
Notation "x <- m ;; k" := (bind m (fun x => k))
  (at level 100, m at next level, right associativity) : method_scope.
Notation "m ;; k" := (bind m (fun _ => k))
  (at level 100, right associativity) : method_scope.

Definition lift {A} (r : res A) : method A := fun self => (self, r).

Definition get_self : method DlrnHttpData := fun self => (self, Ok self).

Definition set_logger (lg : logger) (self : DlrnHttpData) : DlrnHttpData :=
  {| url := url self; release := release self; _logger := lg;
     _link_name := _link_name self; _commit_data := _commit_data self |}.

Definition set_commit_data (cd : gmap string pyval) (self : DlrnHttpData)
  : DlrnHttpData :=
  {| url := url self; release := release self; _logger := _logger self;
     _link_name := _link_name self; _commit_data := cd |}.

(** A call of a function that takes [self._logger]. *)
Definition with_logger {A} (f : logger -> logger * res A) : method A :=
  fun self => let '(lg, r) := f (_logger self) in (set_logger lg self, r).

(** [self._logger.warning(msg)] and [self._logger.error(msg)] *)
Definition log (lv : level) (msg : string) : method unit :=
  fun self => (set_logger (_logger self ++ [(lv, msg)]) self, Ok tt).

Definition assign_commit_data (cd : gmap string pyval) : method unit :=
  fun self => (set_commit_data cd self, Ok tt).

(** [d.get(key)] on the commit record *)
Definition get_or_none (d : gmap string pyval) (key : string) : pyval :=
  default PNone (d !! key).

(** [getattr(hash_data, key, 'None')] *)
Definition getattr_hash (hash_data : DlrnHashes) (key : string) : pyval :=
  if String.eqb key "commit" then commit hash_data
  else if String.eqb key "dist" then dist hash_data
  else if String.eqb key "extended" then extended hash_data
  else PStr "None".

(** The loop of [_build_url] over the keys: the value of [third] when the loop
    ends or raises, and whether it raised. *)
Fixpoint append_hashes (hash_data : DlrnHashes) (keys : list string) (third : pyval)
  : pyval * res unit :=
  match keys with
  | [] => (third, Ok tt)
  | key :: keys' =>
      let data := getattr_hash hash_data key in
      if is_str "None" data then append_hashes hash_data keys' third
      else
        match (let? part := py_slice data 0 8 in
               let? suffix := py_str_add "_" part in
               py_iadd_str third (suffix)) with
        | Ok third' => append_hashes hash_data keys' third'
        | Raise e => (third, Raise e)
        end
  end.

(** [self._build_url(hash_data)], where [self_url] is [self.url].  The first
    component is the object [hash_data.commit] after the call: [third] is
    bound to that object, and [+=] extends a list in place, whereas on a
    string it binds [third] to a new string. *)
Definition _build_url (self_url : string) (hash_data : DlrnHashes)
  : pyval * res string :=
  match py_slice (commit hash_data) 0 2 with
  | Raise e => (commit hash_data, Raise e)
  | Ok first =>
      match py_slice (commit hash_data) 2 4 with
      | Raise e => (commit hash_data, Raise e)
      | Ok second =>
          let '(third, r) :=
            append_hashes hash_data ["dist"; "extended"] (commit hash_data) in
          let commit_after :=
            match commit hash_data with
            | PList _ => third
            | c => c
            end in
          (commit_after,
           let? _ := r in os_path_join self_url [first; second; third])
      end
  end.

Section Client.

(** [toolchest.yaml.parse] and [str()] on a parsed value. *)
Variable yaml_parse : string -> res pyval.
Variable py_str : pyval -> string.

(** [_fetch_yaml(url, logger)] *)
Definition _fetch_yaml (net : network) (url : string) (lg : logger)
  : logger * res pyval :=
  match _raw_fetch net url lg with
  | (lg', Ok (Some raw_data)) => (lg', yaml_parse raw_data)
  | (lg', Ok None) => (lg', Ok PNone)
  | (lg', Raise e) => (lg', Raise e)
  end.

Definition is_none (v : pyval) : bool :=
  match v with PNone => true | _ => false end.

(** [self._fetch_commit()] *)
Definition _fetch_commit (net : network) : method unit :=
  (self <- get_self ;;
   let full_url := path_join (url self) [_link_name self; "commit.yaml"] in
   data <- with_logger (_fetch_yaml net full_url) ;;
   if is_none data then ret tt
   else
     has_commits <- lift (py_contains_str "commits" data) ;;
     if (has_commits : bool) then
       commits <- lift (py_getitem_str data "commits") ;;
       pkg <- lift (py_getitem_0 commits) ;;
       status <- lift (py_getitem_str pkg "status") ;;
       if is_str "SUCCESS" status then
         name <- lift (py_getitem_str pkg "project_name") ;;
         dist_hash <- lift (py_getitem_str pkg "distro_hash") ;;
         commit_hash <- lift (py_getitem_str pkg "commit_hash") ;;
         extended_hash <- lift (py_get pkg "extended_hash") ;;
         assign_commit_data
           (<["extended_hash" := extended_hash]>
              (<["commit_hash" := commit_hash]>
                 (<["dist_hash" := dist_hash]>
                    (<["name" := name]> ∅))))
       else
         log WARNING (py_str pkg +:+ " has a status of error")
     else ret tt)%method.

(** [DlrnHttpData(url, release, link_name, logger)] *)
Definition __init__ (net : network) (url release link_name : string)
  (lg : logger) : DlrnHttpData * res unit :=
  _fetch_commit net
    {| url := path_join url [release]; release := release; _logger := lg;
       _link_name := link_name; _commit_data := ∅ |}.

End Client.

(** ** Reading CSV resources *)

(** [self._parse_csv(url)], iterated to its end: the generator fetches when
    the first row is asked for, which its callers do at once. *)
Definition _parse_csv (net : network) (url : string)
  : method (stream (gmap (option string) cell)) :=
  (data <- with_logger (_raw_fetch net url) ;;
   match data with
   | Some data =>
       let data := replace_space data in
       let split_data := py_split data in
       ret (csv.DictReader split_data)
   | None =>
       log ERROR ("Could not fetch " +:+ url +:+ "!") ;;
       ret ([], None)
   end)%method.

(** [for x in items: acc = body(acc, x)] over a stream. *)
Fixpoint for_each {A R} (body : R -> A -> res R) (items : list A)
  (fin : option exn) (acc : R) : res R :=
  match items with
  | [] =>
      match fin with
      | None => Ok acc
      | Some e => Raise e
      end
  | x :: items' => let? acc' := body acc x in for_each body items' fin acc'
  end.

(** ** The accessors *)

(** An entry of the dictionary [versions] returns. *)
Record version : Type := Build_version {
  source : cell;
  state : cell;
  distgit : cell;
  nvr : cell
}.

Definition versions_body (ret_dict : gmap (option string) version)
  (row : gmap (option string) cell) : res (gmap (option string) version) :=
  let? source := row_get row "Source_Sha" in
  let? state := row_get row "Status" in
  let? distgit := row_get row "Dist_Sha" in
  let? nvr := row_get row "Pkg_NVR" in
  let? project := row_get row "Project" in
  let? key := cell_key project in
  Ok (<[key := {| source := source; state := state;
                  distgit := distgit; nvr := nvr |}]> ret_dict).

(** The call [self._build_url(version_hash)] in [versions]:
    [version_hash.commit] is the object stored under ['commit_hash'] in the
    commit record, so what the call does to it shows there. *)
Definition _build_url_versions (version_hash : DlrnHashes) : method string :=
  fun self =>
    let '(commit_after, r) := _build_url (url self) version_hash in
    (match _commit_data self !! "commit_hash" with
     | Some _ =>
         set_commit_data (<["commit_hash" := commit_after]> (_commit_data self)) self
     | None => self
     end, r).

(** [self.hashes(self._commit_data.get('commit_hash'), ...)] *)
Definition version_hash (self : DlrnHttpData) : DlrnHashes :=
  hashes (get_or_none (_commit_data self) "commit_hash")
         (get_or_none (_commit_data self) "dist_hash")
         (get_or_none (_commit_data self) "extended_hash").

(** The property [self.versions] *)
Definition versions (net : network) : method (gmap (option string) version) :=
  (self <- get_self ;;
   let version_hash := version_hash self in
   base <- _build_url_versions version_hash ;;
   let full_url := path_join base ["versions.csv"] in
   rows <- _parse_csv net full_url ;;
   lift (for_each versions_body rows.1 rows.2 ∅))%method.

Definition cell_is_str (k : string) (c : cell) : bool :=
  match c with
  | CStr s => String.eqb s k
  | _ => false
  end.

Definition failures_body (self_url : string) (failed : gmap (option string) string)
  (row : gmap (option string) cell) : res (gmap (option string) string) :=
  let? status := row_get row "Status" in
  if cell_is_str "FAILED" status then
    let? source_sha := row_get row "Source_Sha" in
    let? dist_sha := row_get row "Dist_Sha" in
    let? extended_sha := row_get row "Extended_Sha" in
    let failed_hash :=
      hashes (cell_value source_sha) (cell_value dist_sha)
             (cell_value extended_sha) in
    let? link := (_build_url self_url failed_hash).2 in
    let? project := row_get row "Project" in
    let? key := cell_key project in
    Ok (<[key := link]> failed)
  else Ok failed.

(** [self.get_failures()] *)
Definition get_failures (net : network) : method (gmap (option string) string) :=
  (self <- get_self ;;
   let status_url := path_join (url self) ["status_report.csv"] in
   rows <- _parse_csv net status_url ;;
   lift (for_each (failures_body (url self)) rows.1 rows.2 ∅))%method.

(** Calls a holder of the object may make after construction, each with the
    network as it is at the time of the call; a caller may catch what a call
    raises and go on. *)
Inductive call : Type :=
| call_versions (net : network)
| call_get_failures (net : network).

Definition run_call (c : call) (self : DlrnHttpData) : DlrnHttpData :=
  match c with
  | call_versions net => (versions net self).1
  | call_get_failures net => (get_failures net self).1
  end.

Definition run_calls (cs : list call) (self : DlrnHttpData) : DlrnHttpData :=
  foldl (fun s c => run_call c s) self cs.

(** ** The specification's wording, as definitions *)

(** The suffix of a dist or extended hash: omitted for the sentinel. *)
Definition hash_suffix (h : string) : string :=
  if String.eqb h "None" then "" else "_" +:+ str_slice 0 8 h.

(** base/release joined with h[0:2], h[2:4] and h{_d[0:8]}{_e[0:8]}. *)
Definition spec_build_url (base h d e : string) : string :=
  path_join base
    [str_slice 0 2 h; str_slice 2 4 h; h +:+ hash_suffix d +:+ hash_suffix e].

Fixpoint str_forallb (p : ascii -> bool) (s : string) : bool :=
  match s with
  | EmptyString => true
  | String c s' => p c && str_forallb p s'
  end.

(** A path component that joins with a plain slash on both sides. *)
Definition plain_component (s : string) : bool :=
  negb (String.eqb s "") && str_forallb (fun c => negb (Ascii.eqb c "/")) s.

(** The lines of a text: split at line breaks, empty lines dropped. *)
Definition spec_lines (text : string) : list string :=
  split_on csv.is_crlf text.

(** The tokens of a line: split at every separator, empty tokens kept. *)
Fixpoint split_at (sep : ascii -> bool) (s : string) : list string :=
  match s with
  | EmptyString => [EmptyString]
  | String c s' =>
      if sep c then EmptyString :: split_at sep s'
      else match split_at sep s' with
           | t :: ts => String c t :: ts
           | [] => [String c EmptyString]
           end
  end.

Definition spec_cells (line : string) : list string :=
  split_at csv.is_delimiter line.

(** The mapping of a data row: header tokens to the cell tokens. *)
Definition spec_row (header cells : list string) : gmap (option string) cell :=
  list_to_map (zip (Some <$> header) (CStr <$> cells)).

(** One mapping per data row of the text, spaces first replaced by
    underscores. *)
Definition spec_parse_csv (text : string) : list (gmap (option string) cell) :=
  match spec_lines (replace_space text) with
  | [] => []
  | header :: data =>
      map (fun line => spec_row (spec_cells header) (spec_cells line)) data
  end.

Definition plain_char (c : ascii) : bool :=
  negb (csv.is_quotechar c) && negb (Ascii.eqb c "000")
  && (negb (is_space c) || Ascii.eqb c " " || csv.is_crlf c).

Definition cell_fits (c : string) : bool :=
  (N.of_nat (String.length c) <=? csv.field_limit)%N.

(** A well-formed CSV text: unquoted cells, no white space other than spaces
    and line breaks, distinct column names, as many cells in every data row
    as there are columns, every cell within the reader's field size limit. *)
Definition well_formed_csv (text : string) : bool :=
  str_forallb plain_char text
  && match spec_lines (replace_space text) with
     | [] => true
     | header :: data =>
         bool_decide (NoDup (spec_cells header))
         && forallb (fun line =>
                       (length (spec_cells line) =? length (spec_cells header))%nat
                       && forallb cell_fits (spec_cells line))
                    (header :: data)
     end.

(** The characters of a text after spaces are replaced, and of its lines. *)
Definition text_char (c : ascii) : bool :=
  negb (csv.is_quotechar c) && negb (Ascii.eqb c "000")
  && Bool.eqb (is_space c) (csv.is_crlf c).

Definition line_char (c : ascii) : bool :=
  negb (csv.is_quotechar c) && negb (Ascii.eqb c "000")
  && negb (csv.is_crlf c).

(** The cells of a line when a field has been read in part already. *)
Definition prepend (f : string) (cells : list string) : list string :=
  match cells with
  | t :: ts => (f +:+ t) :: ts
  | [] => [f]
  end.

(** A line the reader takes as one record of unquoted cells. *)
Definition unquoted_line (line : string) : Prop :=
  line <> "" /\ str_forallb line_char line = true
  /\ forallb cell_fits (spec_cells line) = true.

(** What reading the CSV resource at a URL gives, the log apart. *)
Definition csv_rows (net : network) (u : string)
  : res (stream (gmap (option string) cell)) :=
  match net u with
  | Response status_code text =>
      if (status_code =? 200)%Z
      then Ok (csv.DictReader (py_split (replace_space text)))
      else Ok ([], None)
  | ConnectionError _ => Ok ([], None)
  | OtherException => Raise RequestException
  end.

(** No column of the row holds a list. *)
Definition hashable_cells (row : gmap (option string) cell) : Prop :=
  forall name c, row !! Some name = Some c -> forall l, c <> CRest l.

(** A row has the named columns. *)
Definition has_fields (names : list string) (row : gmap (option string) cell)
  : bool :=
  forallb (fun name => bool_decide (is_Some (row !! Some name))) names.

(** A row has the named columns and each holds a token. *)
Definition has_tokens (names : list string) (row : gmap (option string) cell)
  : bool :=
  forallb (fun name =>
             match row !! Some name with
             | Some (CStr _) => true
             | _ => false
             end) names.

Definition token (row : gmap (option string) cell) (name : string) : string :=
  match row !! Some name with
  | Some (CStr s) => s
  | _ => ""
  end.

Definition project_key (row : gmap (option string) cell) : option string :=
  match row !! Some "Project" with
  | Some (CStr s) => Some s
  | _ => None
  end.

Definition is_failed (row : gmap (option string) cell) : bool :=
  String.eqb (token row "Status") "FAILED".

(** The row that decides the entry of project [k]: the last one. *)
Definition last_row (k : option string) (rows : list (gmap (option string) cell))
  : option (gmap (option string) cell) :=
  last (List.filter (fun row => bool_decide (project_key row = k)) rows).

Definition failure_link (base : string) (row : gmap (option string) cell)
  : string :=
  spec_build_url base (token row "Source_Sha") (token row "Dist_Sha")
    (token row "Extended_Sha").

Definition version_of (row : gmap (option string) cell) : version :=
  {| source := default CNone (row !! Some "Source_Sha");
     state := default CNone (row !! Some "Status");
     distgit := default CNone (row !! Some "Dist_Sha");
     nvr := default CNone (row !! Some "Pkg_NVR") |}.

(** The commit record the constructor builds from a commit entry. *)
Definition commit_record (name dist_hash commit_hash extended_hash : pyval)
  : gmap string pyval :=
  {[ "name" := name; "dist_hash" := dist_hash; "commit_hash" := commit_hash;
     "extended_hash" := extended_hash ]}.

Definition commit_url (base release link : string) : string :=
  path_join (path_join base [release]) [link; "commit.yaml"].

(** What a call may leave of the object it is made on. *)
Definition keeps_config (self self' : DlrnHttpData) : Prop :=
  url self' = url self /\ release self' = release self
  /\ _link_name self' = _link_name self.

Definition keeps_record (self self' : DlrnHttpData) : Prop :=
  keeps_config self self' /\ _commit_data self' = _commit_data self.

Definition frame {A} (R : DlrnHttpData -> DlrnHttpData -> Prop) (m : method A)
  : Prop :=
  forall self, R self (m self).1.

(** ** Inputs of the scenarios *)

(** A parser that gives the same value for every text, and a [str()] that
    does not look at its argument. *)
Definition yaml_fixed (v : pyval) : string -> res pyval := fun _ => Ok v.
Definition str_fixed : pyval -> string := fun _ => "<entry>".

Definition one_file (path text : string) : network :=
  fun u => if String.eqb u path then Response 200 text else Response 404 "".

Definition nl : string := String "010" EmptyString.

Definition entry_fields (status : string) (commit_hash : pyval)
  : list (pyval * pyval) :=
  [(PStr "status", PStr status); (PStr "project_name", PStr "foo");
   (PStr "distro_hash", PStr "abcd1234"); (PStr "commit_hash", commit_hash);
   (PStr "extended_hash", PStr "None")].

Definition commit_entry (status : string) (commit_hash : pyval) : pyval :=
  PDict (entry_fields status commit_hash).

Definition commit_yaml (status : string) (commit_hash : pyval) : pyval :=
  PDict [(PStr "commits", PList [commit_entry status commit_hash])].

(** The object constructed when commit.yaml holds one entry. *)
Definition constructed (status : string) (commit_hash : pyval) : DlrnHttpData :=
  (__init__ (yaml_fixed (commit_yaml status commit_hash)) str_fixed
     (one_file "base/release/current/commit.yaml" "commits: ...")
     "base" "release" "current" []).1.

(** The object constructed when the entry of commit.yaml has no
    [extended_hash]. *)
Definition constructed_without_extended : DlrnHttpData :=
  (__init__
     (yaml_fixed
        (PDict [(PStr "commits",
                 PList [PDict [(PStr "status", PStr "SUCCESS");
                               (PStr "project_name", PStr "foo");
                               (PStr "distro_hash", PStr "abcd1234");
                               (PStr "commit_hash", PStr "1234567890abcdef")]])]))
     str_fixed
     (one_file "base/release/current/commit.yaml" "commits: ...")
     "base" "release" "current" []).1.

Definition status_report : string :=
  "Project,Status,Source_Sha,Dist_Sha,Extended_Sha" +:+ nl +:+
  "bar,FAILED,aa11bb22,cc33dd44,None" +:+ nl.

Definition versions_csv : string :=
  "Project,Source Sha,Dist Sha,Status,Pkg NVR" +:+ nl +:+
  "foo,aa11,bb22,SUCCESS,foo-1.0-1" +:+ nl +:+
  "bar,cc33,dd44,FAILED,bar-2.0-1" +:+ nl +:+
  "foo,ee55,ff66,SUCCESS,foo-1.1-1" +:+ nl.

(** ** The remaining interface: the commit property and the factory *)

Module property.

(** The property [self.commit] *)
Definition commit (self : DlrnHttpData) : gmap string pyval := _commit_data self.

End property.

(** [files = ['dlrn.yml']], extended by [config_file] when that is a list,
    with [config_file] appended when it is anything else but [None]. *)
Definition factory_files (config_file : pyval) : list pyval :=
  match config_file with
  | PNone => [PStr "dlrn.yml"]
  | PList l => PStr "dlrn.yml" :: l
  | v => [PStr "dlrn.yml"; v]
  end.

Section Factory.

(** [ConfigManager(filenames=files, paths=local_path).config]: the
    configuration the manager gives for the files, or what it raises. *)
Variable ConfigManager : list pyval -> res pyval.
Variable yaml_parse : string -> res pyval.
Variable py_str : pyval -> string.

(** [DlrnHttpData(url, release, link_name=link, logger=logger)] on values
    of any type: joining the paths raises TypeError unless url, release and
    link name are strings.  The first component is the logger after the
    call. *)
Definition new_DlrnHttpData (net : network) (url release link_name : pyval)
  (lg : logger) : logger * res DlrnHttpData :=
  match url, release with
  | PStr u, PStr r =>
      match link_name with
      | PStr l =>
          let '(self, result) := __init__ yaml_parse py_str net u r l lg in
          (_logger self, let? _ := result in Ok self)
      | _ => (lg, Raise TypeError)
      end
  | _, _ => (lg, Raise TypeError)
  end.

(** What the factory reads from the configuration before it constructs:
    nothing for an unknown host, else url, release and link name. *)
Definition factory_settings (host : string) (config_file link_name : pyval)
  : res (option (pyval * pyval * pyval)) :=
  let files := factory_files config_file in
  let? config := ConfigManager files in
  let? known := py_contains_str host config in
  if negb known then Ok None
  else
    let? entry := py_getitem_str config host in
    let? link := py_getitem_str entry "link" in
    let link := if is_none link_name then link else link_name in
    let? entry := py_getitem_str config host in
    let? url := py_getitem_str entry "url" in
    let? entry := py_getitem_str config host in
    let? release := py_getitem_str entry "release" in
    Ok (Some (url, release, link)).

(** [dlrn_http_factory(host, config_file, link_name, logger)] *)
Definition dlrn_http_factory (net : network) (host : string)
  (config_file link_name : pyval) (lg : logger)
  : logger * res (option DlrnHttpData) :=
  match factory_settings host config_file link_name with
  | Raise e => (lg, Raise e)
  | Ok None => (lg, Ok None)
  | Ok (Some (url, release, link)) =>
      let '(lg', r) := new_DlrnHttpData net url release link lg in
      (lg', let? self := r in Ok (Some self))
  end.

End Factory.

(** ** Predicates on rows and cells *)

Definition not_space (c : ascii) : bool := negb (is_space c).

(** Every character of what a cell holds satisfies [p]. *)
Definition clean_cell (p : ascii -> bool) (c : cell) : bool :=
  match c with
  | CNone => true
  | CStr s => str_forallb p s
  | CRest l => forallb (str_forallb p) l
  end.

(** Every character the reader has stored satisfies [p]. *)
Definition reader_chars (p : ascii -> bool) (r : csv.ReaderObj) : Prop :=
  Forall (fun f => str_forallb p f = true) (csv.fields r)
  /\ str_forallb p (csv.field r) = true.

(** A row has a Status column and it does not hold FAILED. *)
Definition not_failed (row : gmap (option string) cell) : bool :=
  match row !! Some "Status" with
  | Some c => negb (cell_is_str "FAILED" c)
  | None => false
  end.

(** A FAILED row with a source hash and no dist hash: a row too short for
    the Dist_Sha column. *)
Definition failed_without_dist (row : gmap (option string) cell) : bool :=
  match row !! Some "Status", row !! Some "Source_Sha", row !! Some "Dist_Sha",
        row !! Some "Extended_Sha" with
  | Some (CStr st), Some (CStr _), Some CNone, Some _ => String.eqb st "FAILED"
  | _, _, _, _ => false
  end.

(** The commit hash of the record is a list. *)
Definition list_commit_hash (self : DlrnHttpData) : Prop :=
  exists l, _commit_data self !! "commit_hash" = Some (PList l).

(** A configuration with one host. *)
Definition one_host (host : string) (settings : list (pyval * pyval))
  : list pyval -> res pyval :=
  fun _ => Ok (PDict [(PStr host, PDict settings)]).

(** The log of the object after a call starts with the log before it. *)
Definition log_grows (self self' : DlrnHttpData) : Prop :=
  _logger self `prefix_of` _logger self'.

(** Status reports without a Status column, without failures and without
    the other columns, and with a second row that is too short. *)
Definition report_without_status : string :=
  "Project,Source_Sha" +:+ nl +:+ "bar,aa11bb22" +:+ nl.

Definition report_without_failures : string :=
  "Project,Status" +:+ nl +:+ "foo,SUCCESS" +:+ nl +:+ "bar,RETRY" +:+ nl.

Definition report_short_row : string :=
  "Project,Status,Source_Sha,Dist_Sha,Extended_Sha" +:+ nl +:+
  "foo,FAILED,aa11bb22,cc33dd44,None" +:+ nl +:+
  "bar,FAILED,ee55ff66" +:+ nl.

(** The rows of a text. *)
Definition rows_of (text : string) : list (gmap (option string) cell) :=
  (csv.DictReader (py_split (replace_space text))).1.

(** A text with spaces inside its cells and column names. *)
Definition report_with_spaces : string :=
  "Project,Pkg NVR" +:+ nl +:+ "foo bar,foo bar-1.0 1" +:+ nl.

(** ** A CSV text as it is written

    A table is written cell by cell: a cell is plain or enclosed in double
    quotes with the quotes inside it doubled, the cells of a line are
    separated by commas, and the lines by line breaks.  Nothing here is
    taken from the functions of the client. *)

Inductive written : Type :=
| Plain (t : string)
| Quoted (t : string).

(** The token a written cell stands for. *)
Definition cell_text (c : written) : string :=
  match c with
  | Plain t => t
  | Quoted t => t
  end.

Definition dquote : string := String "034" EmptyString.

Fixpoint doubled_quotes (t : string) : string :=
  match t with
  | EmptyString => EmptyString
  | String c t' =>
      if Ascii.eqb c "034" then String c (String c (doubled_quotes t'))
      else String c (doubled_quotes t')
  end.

Definition write_cell (c : written) : string :=
  match c with
  | Plain t => t
  | Quoted t => dquote +:+ doubled_quotes t +:+ dquote
  end.

Fixpoint write_line (cells : list written) : string :=
  match cells with
  | [] => EmptyString
  | [c] => write_cell c
  | c :: cells' => write_cell c +:+ "," +:+ write_line cells'
  end.

(** The lines, each followed by [eol] but the last, which is followed by
    [last]. *)
Fixpoint write_text (eol last : string) (lines : list (list written)) : string :=
  match lines with
  | [] => EmptyString
  | [l] => write_line l +:+ last
  | l :: lines' => write_line l +:+ eol +:+ write_text eol last lines'
  end.

(** A token with every space replaced by an underscore. *)
Fixpoint underscored (t : string) : string :=
  match t with
  | EmptyString => EmptyString
  | String c t' =>
      String (if Ascii.eqb c " " then "_"%char else c) (underscored t')
  end.

Definition underscored_cell (c : written) : written :=
  match c with
  | Plain t => Plain (underscored t)
  | Quoted t => Quoted (underscored t)
  end.

(** The mapping of a data row: the header tokens to the cell tokens, spaces
    replaced by underscores. *)
Definition written_row (header cells : list written)
  : gmap (option string) cell :=
  list_to_map
    (zip (Some <$> ((fun c => underscored (cell_text c)) <$> header))
         (CStr <$> ((fun c => underscored (cell_text c)) <$> cells))).

Definition one_of (codes : list N) (c : ascii) : bool :=
  existsb (N.eqb (N_of_ascii c)) codes.

(** A character a cell may hold: not NUL and no white space but the space
    (TAB, LF, VT, FF, CR, FS, GS, RS, US, NEL and NBSP are left out). *)
Definition cell_char (c : ascii) : bool :=
  negb (one_of [0; 9; 10; 11; 12; 13; 28; 29; 30; 31; 133; 160]%N c).

(** A plain cell holds no double quote and no comma either. *)
Definition plain_cell_char (c : ascii) : bool :=
  cell_char c && negb (one_of [34; 44]%N c).

Definition line_break_char (c : ascii) : bool := one_of [10; 13]%N c.

Definition within_limit (t : string) : bool :=
  (N.of_nat (String.length t) <=? 131072)%N.

Definition well_written_cell (c : written) : bool :=
  match c with
  | Plain t => str_forallb plain_cell_char t
  | Quoted t => str_forallb cell_char t
  end && within_limit (cell_text c).

(** A line is written with at least one character. *)
Definition well_written_line (cells : list written) : bool :=
  negb (String.eqb (write_line cells) "") && forallb well_written_cell cells.

(** A well-formed CSV text: line breaks of CR and LF between the lines, a
    header whose tokens are distinct, and data rows with as many cells as
    the header. *)
Definition well_written_table (eol last : string) (header : list written)
  (data : list (list written)) : bool :=
  negb (String.eqb eol "") && str_forallb line_break_char eol
  && str_forallb line_break_char last
  && well_written_line header
  && forallb (fun row => well_written_line row
                         && (length row =? length header)%nat) data
  && bool_decide (NoDup ((fun c => underscored (cell_text c)) <$> header)).

(** What the reader needs of a cell it is given. *)
Definition plain_read_char (c : ascii) : bool :=
  negb (csv.is_delimiter c) && negb (csv.is_quotechar c)
  && negb (Ascii.eqb c "000") && not_space c.

Definition quoted_read_char (c : ascii) : bool :=
  negb (Ascii.eqb c "000") && not_space c.

Definition read_ok (c : written) : bool :=
  match c with
  | Plain t => str_forallb plain_read_char t
  | Quoted t => str_forallb quoted_read_char t
  end && within_limit (cell_text c).

(** The reader has read a cell and not yet what follows it. *)
Definition cell_end (r : csv.ReaderObj) : Prop :=
  csv.state r = csv.START_FIELD \/ csv.state r = csv.IN_FIELD
  \/ csv.state r = csv.QUOTE_IN_QUOTED_FIELD.

(** A table with a quoted cell, spaces and doubled quotes. *)
Definition packages_header : list written :=
  [Plain "Project"; Plain "Source Sha"; Quoted "Pkg NVR"].

Definition packages_data : list (list written) :=
  [[Plain "foo"; Plain "aa11"; Quoted "foo 1.0, el9"];
   [Plain "bar baz"; Plain ""; Quoted (String "034" "x" +:+ String "034" "")]].

(** The same table as the text a server sends, written by hand. *)
Definition packages_csv : string :=
  "Project,Source Sha," +:+ dquote +:+ "Pkg NVR" +:+ dquote +:+ nl
  +:+ "foo,aa11," +:+ dquote +:+ "foo 1.0, el9" +:+ dquote +:+ nl
  +:+ "bar baz,," +:+ dquote +:+ dquote +:+ dquote +:+ "x"
  +:+ dquote +:+ dquote +:+ dquote +:+ nl.

(** * Properties *)

#[local] Arguments String.append : simpl nomatch.

(** ** Strings and paths *)

Lemma append_assoc (a b c : string) : (a +:+ b) +:+ c = a +:+ (b +:+ c).
Proof. induction a as [|x a IH]; simpl; [reflexivity | now rewrite IH]. Qed.

Lemma append_empty_r (a : string) : a +:+ "" = a.
Proof. induction a as [|x a IH]; simpl; [reflexivity | now rewrite IH]. Qed.

Lemma ends_with_sep_append (a b : string) :
  b <> "" -> ends_with_sep (a +:+ b) = ends_with_sep b.
Proof.
  intros Hb. induction a as [|x a IH]; [reflexivity|].
  simpl. rewrite IH. destruct (a +:+ b) eqn:E; [|reflexivity].
  destruct a; simpl in E; [congruence | discriminate].
Qed.

Lemma plain_component_nonempty (s : string) :
  plain_component s = true -> s <> "".
Proof.
  unfold plain_component. intros H ->. discriminate.
Qed.

Lemma plain_component_start (s : string) :
  plain_component s = true -> starts_with_sep s = false.
Proof.
  unfold plain_component. destruct s as [|c s]; [discriminate|].
  simpl. destruct (Ascii.eqb c "/"); [discriminate | reflexivity].
Qed.

Lemma plain_component_end (s : string) :
  plain_component s = true -> ends_with_sep s = false.
Proof.
  unfold plain_component. intros [_ H]%andb_prop. clear -H.
  induction s as [|c s IH]; [reflexivity|].
  simpl in H. apply andb_prop in H as [Hc Hs].
  simpl. destruct s; [now destruct (Ascii.eqb c "/") | now apply IH].
Qed.

(** Joining a plain component puts one slash before it. *)
Lemma join_step_plain (path b : string) :
  path <> "" -> ends_with_sep path = false -> plain_component b = true ->
  join_step path b = path +:+ "/" +:+ b
  /\ path +:+ "/" +:+ b <> ""
  /\ ends_with_sep (path +:+ "/" +:+ b) = false.
Proof.
  intros Hp He Hb. unfold join_step.
  rewrite (plain_component_start _ Hb), He.
  destruct (String.eqb_spec path ""); [contradiction|]. simpl.
  split; [reflexivity|]. split.
  - destruct path; [contradiction | discriminate].
  - rewrite ends_with_sep_append by discriminate.
    change ("/" +:+ b) with (String "/" b).
    pose proof (plain_component_nonempty _ Hb).
    pose proof (plain_component_end _ Hb).
    simpl. destruct b; [contradiction | assumption].
Qed.

(** With plain components the URL of commit.yaml is
    base/release/link/commit.yaml. *)
Lemma commit_url_layout (base rel link : string) :
  base <> "" -> ends_with_sep base = false ->
  plain_component rel = true -> plain_component link = true ->
  commit_url base rel link
  = base +:+ "/" +:+ rel +:+ "/" +:+ link +:+ "/" +:+ "commit.yaml".
Proof.
  intros Hb He Hr Hl. unfold commit_url, path_join. simpl.
  destruct (join_step_plain base rel Hb He Hr) as (-> & Hb1 & He1).
  destruct (join_step_plain _ link Hb1 He1 Hl) as (-> & Hb2 & He2).
  destruct (join_step_plain _ "commit.yaml" Hb2 He2 eq_refl) as (-> & _ & _).
  now rewrite !append_assoc.
Qed.

(** ** The URL builder *)

Lemma is_str_PStr (k s : string) : is_str k (PStr s) = String.eqb s k.
Proof. reflexivity. Qed.

(** On three strings the builder returns the path the specification
    describes, and leaves the commit hash as it was. *)
Lemma build_url_strings (base h d e : string) :
  _build_url base (hashes (PStr h) (PStr d) (PStr e))
  = (PStr h, Ok (spec_build_url base h d e)).
Proof.
  unfold _build_url, spec_build_url, hash_suffix. simpl.
  destruct (String.eqb d "None"), (String.eqb e "None"); simpl;
    unfold os_path_join; simpl;
    rewrite ?append_assoc, ?append_empty_r; reflexivity.
Qed.

(** With plain components the path is the slash-separated layout
    base/h[0:2]/h[2:4]/h{_d[0:8]}{_e[0:8]}. *)
Lemma spec_build_url_layout (base h d e : string) :
  base <> "" -> ends_with_sep base = false ->
  plain_component (str_slice 0 2 h) = true ->
  plain_component (str_slice 2 4 h) = true ->
  starts_with_sep h = false ->
  spec_build_url base h d e
  = base +:+ "/" +:+ str_slice 0 2 h +:+ "/" +:+ str_slice 2 4 h +:+ "/"
    +:+ h +:+ hash_suffix d +:+ hash_suffix e.
Proof.
  intros Hb He H1 H2 Hh. unfold spec_build_url, path_join. simpl.
  destruct (join_step_plain base _ Hb He H1) as (-> & Hb1 & He1).
  destruct (join_step_plain _ _ Hb1 He1 H2) as (-> & Hb2 & He2).
  unfold join_step.
  assert (starts_with_sep (h +:+ hash_suffix d +:+ hash_suffix e) = false) as ->.
  { destruct h; [|exact Hh]. simpl in H1. discriminate. }
  rewrite He2.
  match goal with |- context [String.eqb ?p ""] =>
    destruct (String.eqb_spec p ""); [contradiction|] end.
  simpl. rewrite !append_assoc. reflexivity.
Qed.

(** C1.  A hash triple whose commit is a string and whose dist hash is absent
    ([None], which is what [versions] passes for a missing key) does not get
    the path without the dist suffix: slicing the absent value raises
    TypeError, whatever the base and the extended hash. *)
Theorem build_url_absent_dist_raises (base h : string) (e : pyval) :
  _build_url base (hashes (PStr h) PNone e) = (PStr h, Raise TypeError).
Proof. reflexivity. Qed.

(** The same holds for an absent extended hash next to a present dist hash:
    the case of a commit entry without [extended_hash]. *)
Lemma build_url_absent_extended_raises (base h d : string) :
  _build_url base (hashes (PStr h) (PStr d) PNone) = (PStr h, Raise TypeError).
Proof.
  unfold _build_url. simpl. destruct (String.eqb d "None"); reflexivity.
Qed.

(** ** Construction *)

Lemma commit_record_inserts (name dist_hash commit_hash extended_hash : pyval) :
  <["extended_hash" := extended_hash]>
    (<["commit_hash" := commit_hash]>
       (<["dist_hash" := dist_hash]> (<["name" := name]> ∅)))
  = commit_record name dist_hash commit_hash extended_hash.
Proof.
  unfold commit_record. apply map_eq. intros k.
  rewrite !lookup_insert, lookup_singleton, lookup_empty.
  repeat case_decide; subst; try reflexivity; try discriminate.
Qed.

(** X1.  When does the raw fetch give nothing: on a connection error, which
    is logged as a warning, and on every status code other than 200, 201 and
    204 included, which logs nothing. *)
Lemma raw_fetch_absent (net : network) (u : string) (lg lg' : logger) :
  _raw_fetch net u lg = (lg', Ok None) <->
  (exists request, net u = ConnectionError request /\ lg' = lg ++ [(WARNING, request)])
  \/ (exists status_code text,
        net u = Response status_code text /\ status_code <> 200%Z /\ lg' = lg).
Proof.
  unfold _raw_fetch. destruct (net u) as [code text|request|] eqn:E.
  - destruct (Z.eqb_spec code 200) as [->|Hne].
    + split; [discriminate|]. intros [(? & ? & _)|(? & ? & H & Hc & _)];
        [discriminate | congruence].
    + split.
      * intros [= <-]. right. eauto.
      * intros [(? & ? & _)|(? & ? & _ & _ & ->)]; [discriminate | reflexivity].
  - split.
    + intros [= <-]. left. eauto.
    + intros [(? & [= <-] & ->)|(? & ? & ? & _)]; [reflexivity | discriminate].
  - split; [discriminate|].
    intros [(? & ? & _)|(? & ? & ? & _)]; discriminate.
Qed.

Section Construction.

Variable yaml_parse : string -> res pyval.
Variable py_str : pyval -> string.

#[local] Abbreviation init := (__init__ yaml_parse py_str).

Lemma is_str_false (k : string) (v : pyval) :
  v <> PStr k -> is_str k v = false.
Proof.
  destruct v; try reflexivity. simpl. intros H.
  destruct (String.eqb_spec s k); [subst; contradiction | reflexivity].
Qed.

(** The constructor up to the point where the first commit entry is at
    hand. *)
Lemma init_fetches_entry net base rel link lg text d pkg rest :
  net (commit_url base rel link) = Response 200 text ->
  yaml_parse text = Ok (PDict d) ->
  dict_get_str "commits" d = Some (PList (pkg :: rest)) ->
  init net base rel link lg
  = ((status <- lift (py_getitem_str pkg "status") ;;
      if is_str "SUCCESS" status then
        name <- lift (py_getitem_str pkg "project_name") ;;
        dist_hash <- lift (py_getitem_str pkg "distro_hash") ;;
        commit_hash <- lift (py_getitem_str pkg "commit_hash") ;;
        extended_hash <- lift (py_get pkg "extended_hash") ;;
        assign_commit_data
          (<["extended_hash" := extended_hash]>
             (<["commit_hash" := commit_hash]>
                (<["dist_hash" := dist_hash]> (<["name" := name]> ∅))))
      else log WARNING (py_str pkg +:+ " has a status of error"))%method
       {| url := path_join base [rel]; release := rel; _logger := lg;
          _link_name := link; _commit_data := ∅ |}).
Proof.
  intros Hnet Hyaml Hcommits.
  unfold init, __init__, _fetch_commit, commit_url in *.
  unfold bind at 1. unfold get_self at 1. cbv beta iota.
  unfold bind at 1. unfold with_logger at 1, _fetch_yaml, _raw_fetch.
  cbn [url _link_name _logger]. rewrite Hnet. cbn [Z.eqb Pos.eqb].
  rewrite Hyaml. cbn [set_logger is_none url release _link_name _commit_data _logger].
  unfold bind at 1, lift at 1. cbn [py_contains_str]. rewrite Hcommits.
  cbn [bool_decide]. 
  unfold bind at 1, lift at 1. cbn [py_getitem_str]. rewrite Hcommits.
  unfold bind at 1, lift at 1. cbn [py_getitem_0].
  reflexivity.
Qed.

(** C2.  The constructor fetches base/release/link/commit.yaml.  When the
    first entry of its [commits] list has status SUCCESS, the commit record
    holds exactly that entry's project_name, distro_hash, commit_hash and
    extended_hash ([None] when the entry has none).  When the status is
    anything else, a warning that contains the entry is logged and the
    record stays empty.  When the fetch gives nothing, the record stays
    empty.  In all three cases the constructor returns normally. *)
Theorem init_commit_record net base rel link lg :
  let new := init net base rel link lg in
  (forall text d pkg rest name dist_hash commit_hash,
      net (commit_url base rel link) = Response 200 text ->
      yaml_parse text = Ok (PDict d) ->
      dict_get_str "commits" d = Some (PList (PDict pkg :: rest)) ->
      dict_get_str "status" pkg = Some (PStr "SUCCESS") ->
      dict_get_str "project_name" pkg = Some name ->
      dict_get_str "distro_hash" pkg = Some dist_hash ->
      dict_get_str "commit_hash" pkg = Some commit_hash ->
      new.2 = Ok tt
      /\ _commit_data new.1
         = commit_record name dist_hash commit_hash
             (default PNone (dict_get_str "extended_hash" pkg))
      /\ _logger new.1 = lg)
  /\ (forall text d pkg rest status,
        net (commit_url base rel link) = Response 200 text ->
        yaml_parse text = Ok (PDict d) ->
        dict_get_str "commits" d = Some (PList (PDict pkg :: rest)) ->
        dict_get_str "status" pkg = Some status ->
        status <> PStr "SUCCESS" ->
        new.2 = Ok tt
        /\ _commit_data new.1 = ∅
        /\ _logger new.1
           = lg ++ [(WARNING, py_str (PDict pkg) +:+ " has a status of error")])
  /\ (forall lg',
        _raw_fetch net (commit_url base rel link) lg = (lg', Ok None) ->
        new.2 = Ok tt /\ _commit_data new.1 = ∅ /\ _logger new.1 = lg').
Proof.
  intros new. subst new. split; [|split].
  - intros text d pkg rest name dist_hash commit_hash
      Hnet Hyaml Hcommits Hstatus Hname Hdist Hcommit.
    rewrite (init_fetches_entry _ _ _ _ _ _ _ _ _ Hnet Hyaml Hcommits).
    unfold bind, lift, py_getitem_str, py_get, assign_commit_data.
    rewrite Hstatus. cbn [is_str String.eqb Ascii.eqb Bool.eqb].
    rewrite Hname, Hdist, Hcommit. cbn [fst snd set_commit_data _commit_data _logger].
    rewrite commit_record_inserts. auto.
  - intros text d pkg rest status Hnet Hyaml Hcommits Hstatus Hne.
    rewrite (init_fetches_entry _ _ _ _ _ _ _ _ _ Hnet Hyaml Hcommits).
    unfold bind, lift, py_getitem_str, log.
    rewrite Hstatus, (is_str_false _ _ Hne).
    cbn [fst snd set_logger _commit_data _logger]. auto.
  - intros lg' Hfetch.
    unfold init, __init__, _fetch_commit, commit_url in *.
    unfold bind, get_self, with_logger, _fetch_yaml.
    cbn [url _link_name _logger]. rewrite Hfetch.
    cbn [is_none ret fst snd set_logger _commit_data _logger]. auto.
Qed.

(** C9.  A commit.yaml whose [commits] key is bound to an empty list makes
    the constructor raise: taking the first element fails with IndexError,
    which nothing catches. *)
Theorem init_empty_commits_raises net base rel link lg text d :
  net (commit_url base rel link) = Response 200 text ->
  yaml_parse text = Ok (PDict d) ->
  dict_get_str "commits" d = Some (PList []) ->
  (init net base rel link lg).2 = Raise IndexError.
Proof.
  intros Hnet Hyaml Hcommits.
  unfold init, __init__, _fetch_commit, commit_url in *.
  unfold bind, get_self, with_logger, _fetch_yaml, _raw_fetch, lift.
  cbn [url _link_name _logger]. rewrite Hnet. cbn [Z.eqb Pos.eqb].
  rewrite Hyaml. cbn [set_logger is_none py_contains_str py_getitem_str].
  rewrite Hcommits. reflexivity.
Qed.

End Construction.

Lemma init_commit_record_witness :
  (let new := __init__ (yaml_fixed (commit_yaml "SUCCESS" (PStr "1234567890abcdef")))
                str_fixed (one_file "base/release/current/commit.yaml" "commits: ...")
                "base" "release" "current" [] in
   new.2 = Ok tt
   /\ _commit_data new.1
      = commit_record (PStr "foo") (PStr "abcd1234") (PStr "1234567890abcdef")
          (PStr "None")
   /\ _logger new.1 = [])
  /\ (let new := __init__ (yaml_fixed (commit_yaml "ERROR" (PStr "1234567890abcdef")))
                   str_fixed (one_file "base/release/current/commit.yaml" "commits: ...")
                   "base" "release" "current" [] in
      new.2 = Ok tt /\ _commit_data new.1 = ∅
      /\ _logger new.1 = [(WARNING, "<entry> has a status of error")])
  /\ (let new := __init__ (yaml_fixed PNone) str_fixed
                   (fun _ => ConnectionError "<PreparedRequest [GET]>")
                   "base" "release" "current" [] in
      new.2 = Ok tt /\ _commit_data new.1 = ∅
      /\ _logger new.1 = [(WARNING, "<PreparedRequest [GET]>")]).
Proof.
  split; [|split].
  - apply (proj1 (init_commit_record
                    (yaml_fixed (commit_yaml "SUCCESS" (PStr "1234567890abcdef")))
                    str_fixed
                    (one_file "base/release/current/commit.yaml" "commits: ...")
                    "base" "release" "current" [])
             "commits: ..."
             [(PStr "commits", PList [commit_entry "SUCCESS" (PStr "1234567890abcdef")])]
             (entry_fields "SUCCESS" (PStr "1234567890abcdef")) []
             (PStr "foo") (PStr "abcd1234") (PStr "1234567890abcdef"));
      reflexivity.
  - apply (proj1 (proj2 (init_commit_record
                    (yaml_fixed (commit_yaml "ERROR" (PStr "1234567890abcdef")))
                    str_fixed
                    (one_file "base/release/current/commit.yaml" "commits: ...")
                    "base" "release" "current" []))
             "commits: ..."
             [(PStr "commits", PList [commit_entry "ERROR" (PStr "1234567890abcdef")])]
             (entry_fields "ERROR" (PStr "1234567890abcdef")) [] (PStr "ERROR"));
      try reflexivity; discriminate.
  - eapply (proj2 (proj2 (init_commit_record (yaml_fixed PNone) str_fixed
                     (fun _ => ConnectionError "<PreparedRequest [GET]>")
                     "base" "release" "current" []))); reflexivity.
Defined.

Lemma init_empty_commits_raises_witness :
  (__init__ (yaml_fixed (PDict [(PStr "commits", PList [])])) str_fixed
     (one_file "base/release/current/commit.yaml" "commits: []")
     "base" "release" "current" []).2 = Raise IndexError.
Proof.
  eapply (init_empty_commits_raises
            (yaml_fixed (PDict [(PStr "commits", PList [])])) str_fixed
            (one_file "base/release/current/commit.yaml" "commits: []"));
    reflexivity.
Defined.

(** ** What the building blocks of a method leave of the object *)

Lemma set_logger_keeps (lg : logger) (self : DlrnHttpData) :
  keeps_record self (set_logger lg self).
Proof. repeat split. Qed.

Lemma keeps_record_refl (self : DlrnHttpData) : keeps_record self self.
Proof. repeat split. Qed.

Lemma keeps_record_trans (a b c : DlrnHttpData) :
  keeps_record a b -> keeps_record b c -> keeps_record a c.
Proof.
  intros ((? & ? & ?) & ?) ((? & ? & ?) & ?). repeat split; congruence.
Qed.

Lemma keeps_config_refl (self : DlrnHttpData) : keeps_config self self.
Proof. repeat split. Qed.

Lemma keeps_config_trans (a b c : DlrnHttpData) :
  keeps_config a b -> keeps_config b c -> keeps_config a c.
Proof. intros (? & ? & ?) (? & ? & ?). repeat split; congruence. Qed.

Lemma keeps_record_config (a b : DlrnHttpData) :
  keeps_record a b -> keeps_config a b.
Proof. now intros [? _]. Qed.

Section Frames.

Context {A B : Type}.
Variable R : DlrnHttpData -> DlrnHttpData -> Prop.
Hypothesis R_refl : forall s, R s s.
Hypothesis R_trans : forall a b c, R a b -> R b c -> R a c.
Hypothesis R_logger : forall lg s, R s (set_logger lg s).

Lemma frame_ret (v : A) : frame R (ret v).
Proof. intros s. apply R_refl. Qed.

Lemma frame_lift (r : res A) : frame R (lift r).
Proof. intros s. apply R_refl. Qed.

Lemma frame_with_logger (f : logger -> logger * res A) : frame R (with_logger f).
Proof.
  intros s. unfold with_logger. destruct (f (_logger s)). apply R_logger.
Qed.

Lemma frame_bind (m : method A) (k : A -> method B) :
  frame R m -> (forall v, frame R (k v)) -> frame R (bind m k).
Proof.
  intros Hm Hk s. unfold bind. specialize (Hm s).
  destruct (m s) as [s' [v|e]]; simpl in *; [|assumption].
  eapply R_trans; [eassumption | apply Hk].
Qed.

End Frames.

Lemma frame_get_self R : (forall s, R s s) -> frame R get_self.
Proof. intros H s. apply H. Qed.

Lemma frame_log R lv msg :
  (forall lg s, R s (set_logger lg s)) -> frame R (log lv msg).
Proof. intros H s. apply H. Qed.

Lemma frame_assign_commit_data cd : frame keeps_config (assign_commit_data cd).
Proof. intros s. repeat split. Qed.

Lemma frame_if {A} R (b : bool) (m1 m2 : method A) :
  frame R m1 -> frame R m2 -> frame R (if b then m1 else m2).
Proof. now destruct b. Qed.

Create HintDb frames.

#[local] Hint Resolve keeps_record_refl keeps_record_trans set_logger_keeps
  keeps_config_refl keeps_config_trans : frames.

(** Reading a CSV resource only adds to the log. *)
Lemma parse_csv_frame (net : network) (u : string) :
  frame keeps_record (_parse_csv net u).
Proof.
  unfold _parse_csv. apply frame_bind; eauto with frames.
  - apply frame_with_logger. eauto with frames.
  - intros [data|]; [apply frame_ret; eauto with frames|].
    apply frame_bind; eauto with frames.
    + apply frame_log. eauto with frames.
    + intros _. apply frame_ret. eauto with frames.
Qed.

(** What reading a CSV resource returns does not depend on the object. *)
Lemma parse_csv_result (net : network) (u : string) (self : DlrnHttpData) :
  (_parse_csv net u self).2 = csv_rows net u.
Proof.
  unfold _parse_csv, csv_rows, bind, with_logger, _raw_fetch.
  destruct (net u) as [code text|request|]; [|reflexivity..].
  destruct (code =? 200)%Z; reflexivity.
Qed.

(** The constructor sets url, release and link name and never changes them. *)
Lemma fetch_commit_frame yaml_parse py_str (net : network) :
  frame keeps_config (_fetch_commit yaml_parse py_str net).
Proof.
  unfold _fetch_commit.
  apply frame_bind; eauto with frames; [apply frame_get_self; eauto with frames|].
  intros self. apply frame_bind; eauto with frames.
  { apply frame_with_logger. intros; repeat split. }
  intros data. apply frame_if; [apply frame_ret; eauto with frames|].
  apply frame_bind; eauto with frames; [apply frame_lift; eauto with frames|].
  intros has. apply frame_if; [|apply frame_ret; eauto with frames].
  repeat (apply frame_bind; eauto with frames;
          [apply frame_lift; eauto with frames | intros ?]).
  apply frame_if.
  - repeat (apply frame_bind; eauto with frames;
            [apply frame_lift; eauto with frames | intros ?]).
    apply frame_assign_commit_data.
  - apply frame_log. intros; repeat split.
Qed.

Lemma init_url yaml_parse py_str net base rel link lg :
  url (__init__ yaml_parse py_str net base rel link lg).1 = path_join base [rel].
Proof.
  unfold __init__.
  match goal with |- url (_ ?s).1 = _ =>
    destruct (fetch_commit_frame yaml_parse py_str net s) as (H & _) end.
  exact H.
Qed.

(** ** The accessors and the object *)

(** The builder changes the commit hash it is given only when that is a
    list. *)
Lemma build_url_commit_after (u : string) (h : DlrnHashes) :
  (forall l, commit h <> PList l) -> (_build_url u h).1 = commit h.
Proof.
  intros Hl. unfold _build_url. destruct h as [c d e]. cbn [commit] in *.
  destruct c; cbn [py_slice]; try reflexivity.
  - now destruct (append_hashes _ _ _).
  - now destruct (Hl l).
Qed.

(** The builder returns a URL only for a commit hash that is a string. *)
Lemma build_url_ok_commit (u b : string) (h : DlrnHashes) :
  (_build_url u h).2 = Ok b -> exists c, commit h = PStr c.
Proof.
  unfold _build_url. destruct h as [c d e]. cbn [commit].
  destruct c; cbn [py_slice]; try discriminate.
  - eauto.
  - destruct (append_hashes _ _ _) as [third [[]|err]]; discriminate.
Qed.

Lemma set_commit_data_same (self : DlrnHttpData) :
  set_commit_data (_commit_data self) self = self.
Proof. now destruct self. Qed.

(** The call of the builder in [versions] leaves the object alone unless the
    commit hash of the record is a list. *)
Lemma build_url_versions_same (self : DlrnHttpData) :
  (forall l, _commit_data self !! "commit_hash" <> Some (PList l)) ->
  _build_url_versions (version_hash self) self
  = (self, (_build_url (url self) (version_hash self)).2).
Proof.
  intros Hl. unfold _build_url_versions.
  pose proof (build_url_commit_after (url self) (version_hash self)) as Hc.
  destruct (_build_url (url self) (version_hash self)) as [c r]. simpl in *.
  destruct (_commit_data self !! "commit_hash") as [v|] eqn:E; [|reflexivity].
  rewrite Hc.
  - unfold get_or_none. rewrite E. simpl.
    rewrite insert_id by exact E. now rewrite set_commit_data_same.
  - intros l. unfold get_or_none. rewrite E. simpl. intros ->. now apply (Hl l).
Qed.

Lemma versions_frame (net : network) (self : DlrnHttpData) :
  (forall l, _commit_data self !! "commit_hash" <> Some (PList l)) ->
  keeps_record self (versions net self).1.
Proof.
  intros Hl. unfold versions, bind at 1, get_self.
  unfold bind at 1. rewrite (build_url_versions_same self Hl).
  destruct (_build_url (url self) (version_hash self)).2 as [base|e];
    [|apply keeps_record_refl].
  apply (frame_bind keeps_record); eauto with frames.
  - apply parse_csv_frame.
  - intros rows. apply frame_lift. eauto with frames.
Qed.

Lemma get_failures_frame (net : network) :
  frame keeps_record (get_failures net).
Proof.
  unfold get_failures.
  apply frame_bind; eauto with frames; [apply frame_get_self; eauto with frames|].
  intros self. apply frame_bind; eauto with frames.
  - apply parse_csv_frame.
  - intros rows. apply frame_lift. eauto with frames.
Qed.

(** The optional [extended_hash]: when the entry of commit.yaml has none, the
    constructor records [None] for it, and [versions] raises. *)
Lemma versions_without_extended_hash_raises (net : network) :
  _commit_data constructed_without_extended
  = commit_record (PStr "foo") (PStr "abcd1234") (PStr "1234567890abcdef") PNone
  /\ (versions net constructed_without_extended).2 = Raise TypeError.
Proof.
  split; [|reflexivity].
  unfold constructed_without_extended, __init__, _fetch_commit.
  cbn. apply commit_record_inserts.
Qed.

(** C3.  On an object whose commit record is empty, as the constructor leaves
    it when the build status is not SUCCESS, [versions] does not return a
    URL-derived result: slicing the absent commit hash raises TypeError. *)
Theorem versions_empty_record_raises (net : network) (u rel link : string)
  (lg : logger) :
  versions net {| url := u; release := rel; _logger := lg; _link_name := link;
                  _commit_data := ∅ |}
  = ({| url := u; release := rel; _logger := lg; _link_name := link;
        _commit_data := ∅ |}, Raise TypeError).
Proof. reflexivity. Qed.

(** The scenario from the constructor on: commit.yaml reports a build with
    status ERROR, the constructor logs the warning and leaves the record
    empty, and [versions] then raises. *)
Lemma versions_after_failed_build_raises (net : network) :
  _commit_data (constructed "ERROR" (PStr "1234567890abcdef")) = ∅
  /\ (versions net (constructed "ERROR" (PStr "1234567890abcdef"))).2
     = Raise TypeError.
Proof. split; reflexivity. Qed.

(** C7.  When the URL of versions.csv can be built and fetching it gives
    nothing, [versions] logs the error, returns the empty mapping and leaves
    the object as it was but for the log. *)
Theorem versions_fetch_absent (net : network) (self : DlrnHttpData)
  (base : string) (lg' : logger) :
  (_build_url (url self) (version_hash self)).2 = Ok base ->
  _raw_fetch net (path_join base ["versions.csv"]) (_logger self)
  = (lg', Ok None) ->
  versions net self
  = (set_logger
       (lg' ++ [(ERROR, "Could not fetch " +:+ path_join base ["versions.csv"]
                        +:+ "!")]) self,
     Ok ∅).
Proof.
  intros Hurl Hfetch.
  destruct (build_url_ok_commit _ _ _ Hurl) as [c Hc].
  assert (forall l, _commit_data self !! "commit_hash" <> Some (PList l)) as Hl.
  { intros l E. unfold version_hash, get_or_none in Hc. simpl in Hc.
    rewrite E in Hc. discriminate. }
  unfold versions, bind at 1, get_self. unfold bind at 1.
  rewrite (build_url_versions_same self Hl), Hurl.
  unfold _parse_csv, bind, with_logger. rewrite Hfetch.
  unfold log, ret, lift. simpl. now destruct self.
Qed.

Lemma versions_fetch_absent_witness :
  versions (fun _ => ConnectionError "<PreparedRequest [GET]>")
    (constructed "SUCCESS" (PStr "1234567890abcdef"))
  = (set_logger
       [(WARNING, "<PreparedRequest [GET]>");
        (ERROR, "Could not fetch base/release/12/34/1234567890abcdef_abcd1234/versions.csv!")]
       (constructed "SUCCESS" (PStr "1234567890abcdef")),
     Ok ∅).
Proof.
  apply (versions_fetch_absent (fun _ => ConnectionError "<PreparedRequest [GET]>")
           (constructed "SUCCESS" (PStr "1234567890abcdef"))
           "base/release/12/34/1234567890abcdef_abcd1234"
           [(WARNING, "<PreparedRequest [GET]>")]); reflexivity.
Defined.

(** The accessors never change url, release and link name. *)
Lemma versions_keeps_config (net : network) : frame keeps_config (versions net).
Proof.
  unfold versions.
  apply frame_bind; eauto with frames; [apply frame_get_self; eauto with frames|].
  intros self. apply frame_bind; eauto with frames.
  - intros s. unfold _build_url_versions.
    destruct (_build_url (url s) (version_hash self)) as [c r]. simpl.
    destruct (_commit_data s !! "commit_hash"); repeat split.
  - intros base. apply frame_bind; eauto with frames.
    + intros s. apply keeps_record_config, parse_csv_frame.
    + intros rows. apply frame_lift. eauto with frames.
Qed.

Lemma accessors_keep_config (cs : list call) (self : DlrnHttpData) :
  keeps_config self (run_calls cs self).
Proof.
  revert self. induction cs as [|c cs IH]; intros self; [apply keeps_config_refl|].
  simpl. eapply keeps_config_trans; [|apply IH].
  destruct c as [net|net]; simpl.
  - apply versions_keeps_config.
  - apply keeps_record_config, get_failures_frame.
Qed.

(** C8, as amended.  On an object whose commit hash is not a list (a string,
    another scalar, or no commit hash at all), no sequence of calls of
    [versions] and [get_failures] changes the commit record, the url, the
    release or the link name. *)
Theorem accessors_keep_record (cs : list call) (self : DlrnHttpData) :
  (forall l, _commit_data self !! "commit_hash" <> Some (PList l)) ->
  keeps_record self (run_calls cs self).
Proof.
  revert self. induction cs as [|c cs IH]; intros self Hl;
    [apply keeps_record_refl|].
  simpl.
  assert (keeps_record self (run_call c self)) as Hstep.
  { destruct c as [net|net]; simpl.
    - now apply versions_frame.
    - apply get_failures_frame. }
  eapply keeps_record_trans; [exact Hstep|]. apply IH.
  destruct Hstep as [_ ->]. exact Hl.
Qed.

Lemma accessors_keep_record_witness :
  keeps_record (constructed "SUCCESS" (PStr "1234567890abcdef"))
    (run_calls
       [call_versions (fun _ => Response 404 "");
        call_get_failures (one_file "base/release/status_report.csv" status_report);
        call_versions (fun _ => OtherException)]
       (constructed "SUCCESS" (PStr "1234567890abcdef"))).
Proof.
  apply accessors_keep_record.
  intros l. vm_compute. discriminate.
Defined.

(** C8, as stated, fails.  When the commit hash of commit.yaml is a YAML
    sequence, [versions] binds [third] to the list held by the commit record
    and extends it in place before it raises: the record changes. *)
Lemma versions_extends_list_commit_hash :
  let self := constructed "SUCCESS" (PList [PStr "a"; PStr "b"]) in
  let self' := run_calls [call_versions (fun _ => Response 404 "")] self in
  _commit_data self !! "commit_hash" = Some (PList [PStr "a"; PStr "b"])
  /\ _commit_data self' !! "commit_hash"
     = Some (PList [PStr "a"; PStr "b"; PStr "_"; PStr "a"; PStr "b"; PStr "c";
                    PStr "d"; PStr "1"; PStr "2"; PStr "3"; PStr "4"])
  /\ ~ keeps_record self self'.
Proof.
  split; [reflexivity|]. split; [reflexivity|].
  intros [_ H]. apply (f_equal (fun m => m !! "commit_hash")) in H.
  vm_compute in H. discriminate.
Qed.

(** ** Results of methods *)

Lemma bind_result {A B} (m : method A) (k : A -> method B) (self : DlrnHttpData) :
  (bind m k self).2
  = match (m self).2 with
    | Ok v => (k v (m self).1).2
    | Raise e => Raise e
    end.
Proof. unfold bind. now destruct (m self) as [s [v|e]]. Qed.

(** What [get_failures] returns is decided by the url of the object and the
    status report alone. *)
Lemma get_failures_result (net : network) (self : DlrnHttpData) :
  (get_failures net self).2
  = match (_parse_csv net (path_join (url self) ["status_report.csv"]) self).2 with
    | Ok rows => for_each (failures_body (url self)) rows.1 rows.2 ∅
    | Raise e => Raise e
    end.
Proof.
  unfold get_failures. rewrite bind_result. simpl. rewrite bind_result.
  reflexivity.
Qed.

Lemma get_failures_by_url (net : network) (s1 s2 : DlrnHttpData) :
  url s1 = url s2 -> (get_failures net s1).2 = (get_failures net s2).2.
Proof.
  intros H. rewrite !get_failures_result, !parse_csv_result, H. reflexivity.
Qed.

(** C10.  Two objects constructed with the same base URL and release return
    the same mapping from [get_failures] on the same network, whatever their
    commit.yaml, link name and log were, hence whatever their commit records
    are. *)
Theorem get_failures_ignores_commit_record
  (yaml1 yaml2 : string -> res pyval) (str1 str2 : pyval -> string)
  (net1 net2 net : network) (base rel link1 link2 : string) (lg1 lg2 : logger) :
  (get_failures net (__init__ yaml1 str1 net1 base rel link1 lg1).1).2
  = (get_failures net (__init__ yaml2 str2 net2 base rel link2 lg2).1).2.
Proof. apply get_failures_by_url. now rewrite !init_url. Qed.

(** ** Splitting a text *)

Lemma crlf_is_space (c : ascii) : csv.is_crlf c = true -> is_space c = true.
Proof.
  unfold csv.is_crlf. intros [H|H]%orb_prop; apply Ascii.eqb_eq in H; now subst.
Qed.

Lemma str_forallb_impl (p q : ascii -> bool) (s : string) :
  (forall c, p c = true -> q c = true) ->
  str_forallb p s = true -> str_forallb q s = true.
Proof.
  intros Hpq. induction s as [|c s IH]; [reflexivity|]. simpl.
  intros [Hc Hs]%andb_prop. now rewrite (Hpq _ Hc), IH.
Qed.

(** After the replacement the only white space left is line breaks. *)
Lemma replace_space_chars (text : string) :
  str_forallb plain_char text = true ->
  str_forallb text_char (replace_space text) = true.
Proof.
  unfold replace_space. induction text as [|c s IH]; [reflexivity|]. simpl.
  intros [Hc Hs]%andb_prop. rewrite (IH Hs), andb_true_r. clear IH Hs.
  destruct (Ascii.eqb c " ") eqn:Esp; [reflexivity|].
  unfold plain_char in Hc. rewrite Esp, orb_false_r in Hc. unfold text_char.
  apply andb_prop in Hc as [-> Hw]. simpl.
  destruct (csv.is_crlf c) eqn:E.
  - now rewrite (crlf_is_space _ E).
  - rewrite orb_false_r in Hw. apply negb_true_iff in Hw. now rewrite Hw.
Qed.

Lemma split_run_agree (sep1 sep2 : ascii -> bool) (s : string) :
  str_forallb (fun c => Bool.eqb (sep1 c) (sep2 c)) s = true ->
  split_run sep1 s = split_run sep2 s.
Proof.
  induction s as [|c s IH]; [reflexivity|]. simpl.
  intros [Hc Hs]%andb_prop. rewrite (IH Hs).
  apply Bool.eqb_prop in Hc. now rewrite Hc.
Qed.

Lemma py_split_lines (s : string) :
  str_forallb text_char s = true -> py_split s = spec_lines s.
Proof.
  intros H. unfold py_split, spec_lines, split_on.
  rewrite (split_run_agree is_space csv.is_crlf); [reflexivity|].
  revert H. apply str_forallb_impl. intros c. unfold text_char.
  now intros [_ ?]%andb_prop.
Qed.

Lemma Forall_cons_nonempty (P : string -> Prop) (t : string) (ts : list string) :
  (t <> "" -> P t) -> Forall P ts -> Forall P (cons_nonempty t ts).
Proof.
  intros Ht Hts. destruct t; [exact Hts|].
  constructor; [now apply Ht | exact Hts].
Qed.

(** The tokens of a split are not empty and hold no separator. *)
Lemma split_on_tokens (sep p : ascii -> bool) (s : string) :
  str_forallb p s = true ->
  Forall (fun t => t <> "" /\ str_forallb (fun c => p c && negb (sep c)) t = true)
    (split_on sep s).
Proof.
  intros Hs. unfold split_on.
  assert (str_forallb (fun c => p c && negb (sep c)) (split_run sep s).1 = true
          /\ Forall (fun t => t <> ""
                              /\ str_forallb (fun c => p c && negb (sep c)) t = true)
               (split_run sep s).2) as [H1 H2].
  { induction s as [|c s IH]; [now split|].
    simpl in Hs. apply andb_prop in Hs as [Hc Hs]. specialize (IH Hs).
    simpl. destruct (split_run sep s) as [t ts]. destruct IH as [IH1 IH2].
    simpl in IH1, IH2. destruct (sep c) eqn:E; simpl.
    - split; [reflexivity|]. now apply Forall_cons_nonempty.
    - split; [|exact IH2]. now rewrite Hc, E, IH1. }
  destruct (split_run sep s) as [t ts]. now apply Forall_cons_nonempty.
Qed.

Lemma split_at_nonempty (sep : ascii -> bool) (s : string) : split_at sep s <> [].
Proof.
  destruct s as [|c s]; [discriminate|]. simpl.
  destruct (sep c); [discriminate|]. now destruct (split_at sep s).
Qed.

Lemma prepend_empty (cells : list string) : cells <> [] -> prepend "" cells = cells.
Proof. now destruct cells. Qed.

(** ** The reader on unquoted lines *)

Lemma line_char_facts (c : ascii) :
  line_char c = true ->
  csv.is_quotechar c = false /\ Ascii.eqb c "000" = false /\ csv.is_crlf c = false.
Proof.
  unfold line_char. intros [[H1 H2]%andb_prop H3]%andb_prop.
  now rewrite !negb_true_iff in *.
Qed.

Lemma cell_fits_room (f rest : string) (c : ascii) :
  cell_fits (f +:+ String c rest) = true ->
  (csv.field_limit <=? N.of_nat (String.length f))%N = false.
Proof.
  unfold cell_fits. intros H. apply N.leb_le in H. apply N.leb_gt.
  assert (String.length (f +:+ String c rest)
          = String.length f + S (String.length rest))%nat as E.
  { clear. induction f as [|x f IH]; simpl; [reflexivity | now rewrite IH]. }
  rewrite E in H. lia.
Qed.

(** Between the first character of an unquoted line and its end the reader
    is at the start of a field or inside one, and in both states it splits
    at the delimiter: the fields it has saved, with the one it is reading,
    are the cells of what it has seen. *)
Lemma process_unquoted (line : string) :
  forall r : csv.ReaderObj,
    csv.state r = csv.START_FIELD \/ csv.state r = csv.IN_FIELD ->
    str_forallb line_char line = true ->
    forallb cell_fits (prepend (csv.field r) (spec_cells line)) = true ->
    exists r',
      csv.process_line r line = Ok r'
      /\ (csv.state r' = csv.START_FIELD \/ csv.state r' = csv.IN_FIELD)
      /\ csv.fields r' ++ [csv.field r']
         = csv.fields r ++ prepend (csv.field r) (spec_cells line).
Proof.
  induction line as [|c line IH]; intros r Hst Hchars Hfits.
  - exists r. simpl. now rewrite append_empty_r.
  - simpl in Hchars. apply andb_prop in Hchars as [Hc Hchars].
    destruct (line_char_facts c Hc) as (Hq & Hnul & Hcrlf).
    pose proof (split_at_nonempty csv.is_delimiter line) as Hne.
    unfold spec_cells in *. simpl in Hfits |- *. rewrite Hnul.
    destruct (csv.is_delimiter c) eqn:Hd.
    + (* the delimiter ends the field *)
      simpl in Hfits. apply andb_prop in Hfits as [_ Hfits].
      set (r1 := {| csv.state := csv.START_FIELD;
                    csv.fields := csv.fields r ++ [csv.field r];
                    csv.field := "" |}).
      assert (csv.parse_process_char r (Some c) = Ok r1) as ->.
      { unfold csv.parse_process_char.
        destruct Hst as [Hs | Hs]; rewrite Hs; simpl; rewrite ?Hcrlf, ?Hq, Hd;
          [|reflexivity].
        unfold csv.parse_save_field. subst r1. now rewrite Hs. }
      destruct (IH r1) as (r' & Hrun & Hst' & Hfields).
      * now left.
      * exact Hchars.
      * simpl. now rewrite prepend_empty.
      * exists r'. simpl. split; [exact Hrun|]. split; [exact Hst'|].
        rewrite Hfields. simpl. rewrite prepend_empty by exact Hne.
        now rewrite append_empty_r, <- app_assoc.
    + (* any other character is added to the field *)
      destruct (split_at csv.is_delimiter line) as [|t ts] eqn:Hcells;
        [contradiction|].
      simpl in Hfits. apply andb_prop in Hfits as [Hfit Hfits].
      set (r1 := {| csv.state := csv.IN_FIELD; csv.fields := csv.fields r;
                    csv.field := csv.field r +:+ String c "" |}).
      assert (csv.parse_process_char r (Some c) = Ok r1) as ->.
      { unfold csv.parse_process_char, csv.parse_add_char.
        destruct Hst as [Hs | Hs]; rewrite Hs; simpl;
          rewrite ?Hcrlf, ?Hq, ?Hd, (cell_fits_room _ _ _ Hfit); reflexivity. }
      destruct (IH r1) as (r' & Hrun & Hst' & Hfields).
      * now right.
      * exact Hchars.
      * simpl. rewrite append_assoc. simpl. now rewrite Hfit.
      * exists r'. simpl. split; [exact Hrun|]. split; [exact Hst'|].
        rewrite Hfields. simpl. now rewrite append_assoc.
Qed.

(** A whole unquoted line is one record: its cells. *)
Lemma process_record (line : string) :
  line <> "" ->
  str_forallb line_char line = true ->
  forallb cell_fits (spec_cells line) = true ->
  (let? r1 := csv.process_line csv.parse_reset line in
   csv.parse_process_char r1 None)
  = Ok {| csv.state := csv.START_RECORD; csv.fields := spec_cells line;
          csv.field := "" |}.
Proof.
  intros Hne Hchars Hfits.
  assert (csv.process_line csv.parse_reset line
          = csv.process_line (csv.with_state csv.START_FIELD csv.parse_reset) line)
    as ->.
  { destruct line as [|c line]; [contradiction|].
    simpl in Hchars. apply andb_prop in Hchars as [Hc _].
    destruct (line_char_facts c Hc) as (_ & _ & Hcrlf).
    simpl. unfold csv.parse_process_char. simpl. now rewrite Hcrlf. }
  destruct (process_unquoted line (csv.with_state csv.START_FIELD csv.parse_reset))
    as (r' & -> & Hst & Hfields).
  - now left.
  - exact Hchars.
  - simpl. rewrite prepend_empty; [exact Hfits | apply split_at_nonempty].
  - simpl in Hfields |- *.
    rewrite prepend_empty in Hfields by apply split_at_nonempty.
    unfold csv.parse_process_char, csv.with_state, csv.parse_save_field.
    destruct Hst as [-> | ->]; simpl; now rewrite Hfields.
Qed.

Lemma reader_unquoted (lines : list string) :
  Forall unquoted_line lines ->
  csv.reader lines = (map spec_cells lines, None).
Proof.
  unfold csv.reader. induction 1 as [|line lines (Hne & Hchars & Hfits) _ IH];
    [reflexivity|].
  simpl. rewrite (process_record line Hne Hchars Hfits). simpl.
  now rewrite IH.
Qed.

(** ** Rows *)

Lemma foldl_zip_insert (header cells : list string)
  (acc : gmap (option string) cell) :
  NoDup header ->
  foldl (fun d kv => <[Some kv.1 := CStr kv.2]> d) acc (zip header cells)
  = list_to_map (zip (Some <$> header) (CStr <$> cells)) ∪ acc.
Proof.
  intros Hnd. revert cells acc.
  induction Hnd as [|h header Hh Hnd IH]; intros cells acc.
  - simpl. now rewrite (left_id ∅ (∪)).
  - destruct cells as [|c cells]; simpl; [now rewrite (left_id ∅ (∪))|].
    rewrite IH, <- insert_union_l. symmetry. apply insert_union_r.
    apply not_elem_of_list_to_map_1. intros Hin.
    apply list_elem_of_fmap in Hin as ([k v] & Hk & Hin). simpl in Hk. subst k.
    apply elem_of_zip_l in Hin.
    apply list_elem_of_fmap in Hin as (h' & [= <-] & Hin). contradiction.
Qed.

(** With distinct column names and as many cells as columns, the row the
    reader builds maps every column name to its cell. *)
Lemma dict_row_spec (header cells : list string) :
  NoDup header -> length cells = length header ->
  csv.dict_row header cells = spec_row header cells.
Proof.
  intros Hnd Hlen. unfold csv.dict_row, spec_row.
  rewrite Hlen, Nat.ltb_irrefl, drop_all. simpl.
  rewrite (foldl_zip_insert _ _ _ Hnd). apply (right_id ∅ (∪)).
Qed.

Lemma spec_row_lookup (header cells : list string) (j : nat) (h c : string) :
  NoDup header -> header !! j = Some h -> cells !! j = Some c ->
  spec_row header cells !! Some h = Some (CStr c).
Proof.
  unfold spec_row. intros Hnd. revert cells j.
  induction Hnd as [|h0 header Hh0 Hnd IH]; intros cells j Hh Hc;
    [now rewrite lookup_nil in Hh|].
  destruct cells as [|c0 cells]; [now rewrite lookup_nil in Hc|].
  destruct j as [|j]; simpl in *.
  - injection Hh as ->. injection Hc as ->. apply lookup_insert_eq.
  - rewrite lookup_insert_ne; [now apply (IH cells j)|].
    intros [= ->]. apply Hh0. eapply list_elem_of_lookup_2. exact Hh.
Qed.

Lemma filter_nonempty_cells (lines : list string) :
  List.filter csv.nonempty_record (map spec_cells lines) = map spec_cells lines.
Proof.
  induction lines as [|l lines IH]; [reflexivity|]. cbn [map List.filter].
  destruct (spec_cells l) eqn:E;
    [exfalso; eapply split_at_nonempty; exact E|].
  cbn [csv.nonempty_record]. now rewrite IH.
Qed.

(** Over unquoted lines the first line names the columns and every further
    line is a row. *)
Lemma dict_reader_unquoted (header : string) (data : list string) :
  Forall unquoted_line (header :: data) ->
  csv.DictReader (header :: data)
  = (map (fun line => csv.dict_row (spec_cells header) (spec_cells line)) data,
     None).
Proof.
  intros H. unfold csv.DictReader. rewrite (reader_unquoted _ H). simpl.
  now rewrite filter_nonempty_cells, map_map.
Qed.

(** The lines of a well-formed text are unquoted lines. *)
Lemma well_formed_lines (text : string) :
  well_formed_csv text = true ->
  py_split (replace_space text) = spec_lines (replace_space text)
  /\ Forall unquoted_line (spec_lines (replace_space text)).
Proof.
  unfold well_formed_csv. intros [Hchars Hrows]%andb_prop.
  apply replace_space_chars in Hchars. split; [now apply py_split_lines|].
  pose proof (split_on_tokens csv.is_crlf text_char _ Hchars) as Htok.
  fold (spec_lines (replace_space text)) in Htok.
  destruct (spec_lines (replace_space text)) as [|header data]; [constructor|].
  apply andb_prop in Hrows as [_ Hrows].
  rewrite forallb_forall in Hrows. rewrite Forall_forall in Htok |- *.
  intros line Hin. destruct (Htok line Hin) as [Hne Hline].
  apply list_elem_of_In in Hin. apply Hrows in Hin as [_ Hfits]%andb_prop.
  repeat split; [exact Hne| |exact Hfits].
  revert Hline. apply str_forallb_impl. intros c.
  unfold text_char, line_char. now intros [[-> _]%andb_prop ->]%andb_prop.
Qed.

(** The rows of a text with a space in its column names. *)
Lemma spec_parse_csv_versions :
  length (spec_parse_csv versions_csv) = 3%nat
  /\ (forall row, spec_parse_csv versions_csv !! 1%nat = Some row ->
      row !! Some "Project" = Some (CStr "bar")
      /\ row !! Some "Source_Sha" = Some (CStr "cc33")
      /\ row !! Some "Pkg_NVR" = Some (CStr "bar-2.0-1")
      /\ row !! Some "Source Sha" = None).
Proof.
  split; [reflexivity|]. intros row [= <-]. repeat split; reflexivity.
Qed.

(** ** Loops that fill a dictionary *)

Lemma for_each_ok {A R} (body : R -> A -> res R) (step : R -> A -> R)
  (items : list A) (acc : R) :
  (forall acc x, In x items -> body acc x = Ok (step acc x)) ->
  for_each body items None acc = Ok (foldl step acc items).
Proof.
  revert acc. induction items as [|x items IH]; intros acc Hbody; [reflexivity|].
  simpl. rewrite Hbody by now left. simpl. apply IH.
  intros acc' y Hy. apply Hbody. now right.
Qed.

Lemma filter_filter {A} (p q : A -> bool) (l : list A) :
  List.filter p (List.filter q l) = List.filter (fun x => q x && p x) l.
Proof.
  induction l as [|x l IH]; [reflexivity|]. simpl.
  destruct (q x); simpl; [|exact IH]. destruct (p x); now rewrite IH.
Qed.

(** A dictionary filled in a loop holds, for every key, what the last item
    with that key put there. *)
Lemma lookup_foldl_select {A K V} `{Countable K}
  (sel : A -> bool) (key : A -> K) (val : A -> V) (items : list A)
  (acc : gmap K V) (k : K) :
  foldl (fun m x => if sel x then <[key x := val x]> m else m) acc items !! k
  = match last (List.filter (fun x => sel x && bool_decide (key x = k)) items) with
    | Some x => Some (val x)
    | None => acc !! k
    end.
Proof.
  induction items as [|x items IH] using rev_ind; [reflexivity|].
  rewrite foldl_app, List.filter_app. simpl.
  destruct (sel x); simpl.
  - destruct (bool_decide_reflect (key x = k)) as [<-|Hne].
    + now rewrite last_snoc, lookup_insert_eq.
    + rewrite app_nil_r, lookup_insert_ne by exact Hne. exact IH.
  - rewrite app_nil_r. exact IH.
Qed.

(** ** The rows [DictReader] yields *)

Lemma foldl_invariant {A B} (P : B -> Prop) (f : B -> A -> B) (l : list A) (b : B) :
  P b -> (forall b x, P b -> P (f b x)) -> P (foldl f b l).
Proof.
  intros Hb Hf. revert b Hb. induction l as [|x l IH]; intros b Hb; [exact Hb|].
  simpl. apply IH, Hf, Hb.
Qed.

Lemma hashable_insert (row : gmap (option string) cell) (k : option string)
  (c : cell) :
  hashable_cells row -> (forall l, k <> None -> c <> CRest l) ->
  hashable_cells (<[k := c]> row).
Proof.
  intros Hrow Hc name c' Hlook l.
  destruct (decide (k = Some name)) as [->|Hne].
  - rewrite lookup_insert_eq in Hlook. injection Hlook as <-. now apply Hc.
  - rewrite lookup_insert_ne in Hlook by exact Hne. now apply (Hrow name).
Qed.

Lemma dict_row_hashable (fieldnames row : list string) :
  hashable_cells (csv.dict_row fieldnames row).
Proof.
  unfold csv.dict_row.
  assert (hashable_cells
            (foldl (fun (d : gmap (option string) cell) (kv : string * string) =>
                      <[Some kv.1 := CStr kv.2]> d) ∅ (zip fieldnames row)))
    as Hd.
  { apply (foldl_invariant hashable_cells).
    - intros name c Hc. now rewrite lookup_empty in Hc.
    - intros d kv Hd. now apply hashable_insert. }
  destruct (_ <? _)%nat.
  - apply hashable_insert; [exact Hd | now intros l []].
  - apply (foldl_invariant hashable_cells); [exact Hd|].
    intros d key Hd'. now apply hashable_insert.
Qed.

Lemma dict_reader_hashable (f : list string)
  (rows : list (gmap (option string) cell)) (fin : option exn) :
  csv.DictReader f = (rows, fin) -> Forall hashable_cells rows.
Proof.
  unfold csv.DictReader. destruct (csv.reader f) as [[|fieldnames recs] fin'].
  - intros [= <- _]. constructor.
  - intros [= <- _]. apply Forall_forall. intros row Hin.
    apply list_elem_of_In, in_map_iff in Hin as (rec & <- & _).
    apply dict_row_hashable.
Qed.

(** ** What the accessors return *)

Lemma versions_result (net : network) (self : DlrnHttpData) :
  (versions net self).2
  = match (_build_url (url self) (version_hash self)).2 with
    | Ok base =>
        match csv_rows net (path_join base ["versions.csv"]) with
        | Ok rows => for_each versions_body rows.1 rows.2 ∅
        | Raise e => Raise e
        end
    | Raise e => Raise e
    end.
Proof.
  unfold versions. rewrite bind_result. simpl. rewrite bind_result.
  assert ((_build_url_versions (version_hash self) self).2
          = (_build_url (url self) (version_hash self)).2) as ->.
  { unfold _build_url_versions.
    now destruct (_build_url (url self) (version_hash self)). }
  destruct (_build_url (url self) (version_hash self)).2 as [base|e];
    [|reflexivity].
  rewrite bind_result, parse_csv_result. reflexivity.
Qed.

Lemma has_field (names : list string) (name : string)
  (row : gmap (option string) cell) :
  has_fields names row = true -> In name names ->
  exists c, row !! Some name = Some c.
Proof.
  unfold has_fields. rewrite forallb_forall. intros H Hin.
  apply H, bool_decide_eq_true in Hin. exact Hin.
Qed.

Lemma has_token (names : list string) (name : string)
  (row : gmap (option string) cell) :
  has_tokens names row = true -> In name names ->
  exists s, row !! Some name = Some (CStr s).
Proof.
  unfold has_tokens. rewrite forallb_forall. intros H Hin. apply H in Hin.
  destruct (row !! Some name) as [[| s |]|]; try discriminate. eauto.
Qed.

(** One turn of the loop of [versions] on a row that has its columns. *)
Lemma versions_body_ok (ret_dict : gmap (option string) version)
  (row : gmap (option string) cell) :
  has_fields ["Project"; "Source_Sha"; "Status"; "Dist_Sha"; "Pkg_NVR"] row = true ->
  hashable_cells row ->
  versions_body ret_dict row = Ok (<[project_key row := version_of row]> ret_dict).
Proof.
  intros Hf Hh.
  destruct (has_field _ "Project" _ Hf) as [p Hp]; [simpl; tauto|].
  destruct (has_field _ "Source_Sha" _ Hf) as [s Hs]; [simpl; tauto|].
  destruct (has_field _ "Status" _ Hf) as [st Hst]; [simpl; tauto|].
  destruct (has_field _ "Dist_Sha" _ Hf) as [d Hd]; [simpl; tauto|].
  destruct (has_field _ "Pkg_NVR" _ Hf) as [n Hn]; [simpl; tauto|].
  unfold versions_body, row_get, project_key, version_of.
  rewrite Hp, Hs, Hst, Hd, Hn. simpl.
  destruct p as [| name | l]; try reflexivity.
  now destruct (Hh "Project" (CRest l) Hp l).
Qed.

(** One turn of the loop of [get_failures] on a row whose columns hold
    tokens. *)
Lemma failures_body_ok (base : string) (failed : gmap (option string) string)
  (row : gmap (option string) cell) :
  has_tokens ["Status"; "Source_Sha"; "Dist_Sha"; "Extended_Sha"; "Project"] row
  = true ->
  failures_body base failed row
  = Ok (if is_failed row
        then <[project_key row := failure_link base row]> failed
        else failed).
Proof.
  intros Ht.
  destruct (has_token _ "Status" _ Ht) as [st Hst]; [simpl; tauto|].
  destruct (has_token _ "Source_Sha" _ Ht) as [s Hs]; [simpl; tauto|].
  destruct (has_token _ "Dist_Sha" _ Ht) as [d Hd]; [simpl; tauto|].
  destruct (has_token _ "Extended_Sha" _ Ht) as [e He]; [simpl; tauto|].
  destruct (has_token _ "Project" _ Ht) as [p Hp]; [simpl; tauto|].
  unfold failures_body, row_get, is_failed, project_key, failure_link, token.
  rewrite Hst, Hs, Hd, He, Hp. cbn [res_bind cell_is_str cell_value].
  destruct (String.eqb st "FAILED"); [|reflexivity].
  rewrite build_url_strings. reflexivity.
Qed.

(** C5.  When the URL of versions.csv can be built, the file is fetched and
    its rows have the columns Project, Source_Sha, Status, Dist_Sha and
    Pkg_NVR, [versions] returns a mapping that has an entry for a project
    exactly when a row names it, and the entry is the record of the last
    such row: source, state, distgit and nvr are its Source_Sha, Status,
    Dist_Sha and Pkg_NVR. *)
Theorem versions_last_write_wins (net : network) (self : DlrnHttpData)
  (base text : string) (rows : list (gmap (option string) cell)) :
  (_build_url (url self) (version_hash self)).2 = Ok base ->
  net (path_join base ["versions.csv"]) = Response 200 text ->
  csv.DictReader (py_split (replace_space text)) = (rows, None) ->
  forallb (has_fields ["Project"; "Source_Sha"; "Status"; "Dist_Sha"; "Pkg_NVR"])
    rows = true ->
  exists ret_dict : gmap (option string) version,
    (versions net self).2 = Ok ret_dict
    /\ forall k, ret_dict !! k = version_of <$> last_row k rows.
Proof.
  intros Hurl Hnet Hrows Hfields.
  rewrite versions_result, Hurl. unfold csv_rows. rewrite Hnet. simpl.
  rewrite Hrows. simpl.
  pose proof (dict_reader_hashable _ _ _ Hrows) as Hhash.
  rewrite Forall_forall in Hhash. rewrite forallb_forall in Hfields.
  rewrite (for_each_ok _ (fun m row => <[project_key row := version_of row]> m)).
  - eexists. split; [reflexivity|]. intros k.
    rewrite (lookup_foldl_select (fun _ => true) project_key version_of).
    rewrite lookup_empty. unfold last_row. simpl.
    now destruct (last _).
  - intros acc row Hin. apply versions_body_ok; [now apply Hfields|].
    now apply Hhash, list_elem_of_In.
Qed.

(** C4.  When status_report.csv is fetched and every row holds tokens in the
    columns Status, Source_Sha, Dist_Sha, Extended_Sha and Project,
    [get_failures] returns a mapping that has an entry for a project exactly
    when a row with Status FAILED names it, and the entry is the URL built
    from Source_Sha, Dist_Sha and Extended_Sha of the last such row. *)
Theorem get_failures_failed_rows (net : network) (self : DlrnHttpData)
  (text : string) (rows : list (gmap (option string) cell)) :
  net (path_join (url self) ["status_report.csv"]) = Response 200 text ->
  csv.DictReader (py_split (replace_space text)) = (rows, None) ->
  forallb (has_tokens ["Status"; "Source_Sha"; "Dist_Sha"; "Extended_Sha"; "Project"])
    rows = true ->
  exists failed : gmap (option string) string,
    (get_failures net self).2 = Ok failed
    /\ forall k,
        failed !! k
        = failure_link (url self) <$> last_row k (List.filter is_failed rows).
Proof.
  intros Hnet Hrows Htokens.
  rewrite get_failures_result, parse_csv_result. unfold csv_rows.
  rewrite Hnet. simpl. rewrite Hrows. simpl.
  rewrite forallb_forall in Htokens.
  rewrite (for_each_ok _
             (fun m row => if is_failed row
                           then <[project_key row := failure_link (url self) row]> m
                           else m)).
  - eexists. split; [reflexivity|]. intros k.
    rewrite (lookup_foldl_select is_failed project_key (failure_link (url self))).
    rewrite lookup_empty. unfold last_row. rewrite filter_filter.
    now destruct (last _).
  - intros acc row Hin. apply failures_body_ok. now apply Htokens.
Qed.

Lemma versions_last_write_wins_witness :
  exists ret_dict : gmap (option string) version,
    (versions
       (one_file "base/release/12/34/1234567890abcdef_abcd1234/versions.csv"
          versions_csv)
       (constructed "SUCCESS" (PStr "1234567890abcdef"))).2 = Ok ret_dict
    /\ ret_dict !! Some "foo"
       = Some {| source := CStr "ee55"; state := CStr "SUCCESS";
                 distgit := CStr "ff66"; nvr := CStr "foo-1.1-1" |}
    /\ ret_dict !! Some "bar"
       = Some {| source := CStr "cc33"; state := CStr "FAILED";
                 distgit := CStr "dd44"; nvr := CStr "bar-2.0-1" |}
    /\ ret_dict !! Some "baz" = None.
Proof.
  destruct (versions_last_write_wins
              (one_file "base/release/12/34/1234567890abcdef_abcd1234/versions.csv"
                 versions_csv)
              (constructed "SUCCESS" (PStr "1234567890abcdef"))
              "base/release/12/34/1234567890abcdef_abcd1234" versions_csv
              (csv.DictReader (py_split (replace_space versions_csv))).1)
    as (ret_dict & Hres & Hlook);
    [reflexivity | reflexivity | vm_compute; reflexivity
    | vm_compute; reflexivity |].
  exists ret_dict. split; [exact Hres|]. rewrite !Hlook.
  repeat split; vm_compute; reflexivity.
Defined.

Lemma get_failures_failed_rows_witness :
  exists failed : gmap (option string) string,
    (get_failures (one_file "base/release/status_report.csv" status_report)
       (constructed "SUCCESS" (PStr "1234567890abcdef"))).2 = Ok failed
    /\ failed !! Some "bar" = Some "base/release/aa/11/aa11bb22_cc33dd44"
    /\ failed !! Some "foo" = None.
Proof.
  destruct (get_failures_failed_rows
              (one_file "base/release/status_report.csv" status_report)
              (constructed "SUCCESS" (PStr "1234567890abcdef"))
              status_report
              (csv.DictReader (py_split (replace_space status_report))).1)
    as (failed & Hres & Hlook);
    [reflexivity | vm_compute; reflexivity | vm_compute; reflexivity |].
  exists failed. split; [exact Hres|]. rewrite !Hlook.
  split; vm_compute; reflexivity.
Defined.

(** The scenario of the specification: one failed row gives the mapping with
    the one entry for it, the sentinel extended hash leaving no suffix. *)
Lemma get_failures_status_report :
  (get_failures (one_file "base/release/status_report.csv" status_report)
     (constructed "SUCCESS" (PStr "1234567890abcdef"))).2
  = Ok {[ Some "bar" := "base/release/aa/11/aa11bb22_cc33dd44" ]}.
Proof. vm_compute. reflexivity. Qed.

(** A row that is too short for the Dist_Sha column makes [get_failures]
    raise: the absent dist hash reaches the URL builder. *)
Lemma get_failures_short_row_raises :
  (get_failures
     (one_file "base/release/status_report.csv"
        ("Project,Status,Source_Sha,Dist_Sha,Extended_Sha" +:+ nl +:+
         "bar,FAILED,aa11bb22" +:+ nl))
     (constructed "SUCCESS" (PStr "1234567890abcdef"))).2
  = Raise TypeError.
Proof. vm_compute. reflexivity. Qed.

(** * Further properties of the code *)

(** ** Fetching *)

(** The raw fetch returns a text exactly when the response has status
    200, and then it is the text of the response and nothing is logged. *)
Theorem raw_fetch_text (net : network) (u text : string) (lg lg' : logger) :
  _raw_fetch net u lg = (lg', Ok (Some text)) <->
  net u = Response 200 text /\ lg' = lg.
Proof.
  unfold _raw_fetch. destruct (net u) as [code t|request|] eqn:E.
  - destruct (Z.eqb_spec code 200) as [->|Hne].
    + split; [intros [= <- <-]; auto | intros [[= <-] ->]; reflexivity].
    + split; [discriminate | intros [[= ? _] _]; contradiction].
  - split; [discriminate | intros [? _]; discriminate].
  - split; [discriminate | intros [? _]; discriminate].
Qed.

Section FetchYaml.

Variable yaml_parse : string -> res pyval.
Variable py_str : pyval -> string.

(** When the raw fetch gives nothing, [_fetch_yaml] returns [None] and
    the parser has no say: a connection error or a status other than 200
    never reaches it. *)
Theorem fetch_yaml_absent (net : network) (u : string) (lg lg' : logger) :
  _raw_fetch net u lg = (lg', Ok None) ->
  _fetch_yaml yaml_parse net u lg = (lg', Ok PNone).
Proof. intros H. unfold _fetch_yaml. now rewrite H. Qed.

(** X3.  A commit.yaml that is a mapping without the key [commits] leaves
    the commit record empty: the constructor returns normally and logs
    nothing. *)
Theorem init_without_commits (net : network) (base rel link text : string)
  (lg : logger) (d : list (pyval * pyval)) :
  net (commit_url base rel link) = Response 200 text ->
  yaml_parse text = Ok (PDict d) ->
  dict_get_str "commits" d = None ->
  __init__ yaml_parse py_str net base rel link lg
  = ({| url := path_join base [rel]; release := rel; _logger := lg;
        _link_name := link; _commit_data := ∅ |}, Ok tt).
Proof.
  intros Hnet Hyaml Hcommits.
  unfold __init__, _fetch_commit, commit_url in *.
  unfold bind, get_self, with_logger, _fetch_yaml, _raw_fetch, lift.
  cbn [url _link_name _logger]. rewrite Hnet. cbn [Z.eqb Pos.eqb].
  rewrite Hyaml. cbn [set_logger is_none py_contains_str]. rewrite Hcommits.
  reflexivity.
Qed.

(** X5.  When the first commit entry has no [status], or has status SUCCESS
    and lacks [project_name], [distro_hash] or [commit_hash], the
    constructor raises KeyError and the commit record stays empty: no part
    of the entry is recorded. *)
Theorem init_missing_key_raises (net : network) (base rel link text : string)
  (lg : logger) (d pkg : list (pyval * pyval)) (rest : list pyval) :
  net (commit_url base rel link) = Response 200 text ->
  yaml_parse text = Ok (PDict d) ->
  dict_get_str "commits" d = Some (PList (PDict pkg :: rest)) ->
  dict_get_str "status" pkg = None
  \/ (dict_get_str "status" pkg = Some (PStr "SUCCESS")
      /\ (dict_get_str "project_name" pkg = None
          \/ dict_get_str "distro_hash" pkg = None
          \/ dict_get_str "commit_hash" pkg = None)) ->
  __init__ yaml_parse py_str net base rel link lg
  = ({| url := path_join base [rel]; release := rel; _logger := lg;
        _link_name := link; _commit_data := ∅ |}, Raise KeyError).
Proof.
  intros Hnet Hyaml Hcommits Hmissing.
  rewrite (init_fetches_entry _ _ _ _ _ _ _ _ _ _ _ Hnet Hyaml Hcommits).
  unfold bind, lift, py_getitem_str.
  destruct Hmissing as [-> | [-> Hmissing]]; [reflexivity|].
  cbn [is_str String.eqb Ascii.eqb Bool.eqb].
  destruct (dict_get_str "project_name" pkg) as [name|]; [|reflexivity].
  destruct (dict_get_str "distro_hash" pkg) as [dist_hash|]; [|reflexivity].
  destruct (dict_get_str "commit_hash" pkg) as [commit_hash|]; [|reflexivity].
  now destruct Hmissing as [?|[?|?]].
Qed.

End FetchYaml.

(** ** The commit record after construction *)

Section Record.

Variable yaml_parse : string -> res pyval.
Variable py_str : pyval -> string.

(** X4.  Only the first entry of [commits] counts: two documents whose lists
    start with the same entry construct the same object, whatever follows
    the entry, a later SUCCESS after a first failure included. *)
Theorem init_first_entry_only (yaml_parse' : string -> res pyval)
  (net net' : network) (base rel link text text' : string) (lg : logger)
  (d d' : list (pyval * pyval)) (pkg : pyval) (rest rest' : list pyval) :
  net (commit_url base rel link) = Response 200 text ->
  yaml_parse text = Ok (PDict d) ->
  dict_get_str "commits" d = Some (PList (pkg :: rest)) ->
  net' (commit_url base rel link) = Response 200 text' ->
  yaml_parse' text' = Ok (PDict d') ->
  dict_get_str "commits" d' = Some (PList (pkg :: rest')) ->
  __init__ yaml_parse py_str net base rel link lg
  = __init__ yaml_parse' py_str net' base rel link lg.
Proof.
  intros Hnet Hyaml Hcommits Hnet' Hyaml' Hcommits'.
  rewrite (init_fetches_entry _ _ _ _ _ _ _ _ _ _ _ Hnet Hyaml Hcommits).
  rewrite (init_fetches_entry _ _ _ _ _ _ _ _ _ _ _ Hnet' Hyaml' Hcommits').
  reflexivity.
Qed.

(** X6.  Whatever the network and the parser give, the commit record of the
    object under construction is empty or holds exactly the four keys name,
    dist_hash, commit_hash and extended_hash; it holds them only when the
    constructor returns normally. *)
Theorem init_record_shape (net : network) (base rel link : string) (lg : logger) :
  let new := __init__ yaml_parse py_str net base rel link lg in
  property.commit new.1 = ∅
  \/ (new.2 = Ok tt
      /\ exists name dist_hash commit_hash extended_hash,
           property.commit new.1
           = commit_record name dist_hash commit_hash extended_hash).
Proof.
  unfold property.commit, __init__, _fetch_commit.
  unfold bind, get_self, with_logger, lift, ret, log, assign_commit_data.
  cbn [url _link_name _logger].
  destruct (_fetch_yaml _ _ _ _) as [lg' [data|e]]; [|now left].
  cbn [set_logger url release _commit_data _logger _link_name].
  destruct (is_none data); [now left|].
  destruct (py_contains_str "commits" data) as [[]|]; try now left.
  destruct (py_getitem_str data "commits") as [commits|]; [|now left].
  destruct (py_getitem_0 commits) as [pkg|]; [|now left].
  destruct (py_getitem_str pkg "status") as [status|]; [|now left].
  destruct (is_str "SUCCESS" status); [|now left].
  destruct (py_getitem_str pkg "project_name") as [name|]; [|now left].
  destruct (py_getitem_str pkg "distro_hash") as [dist_hash|]; [|now left].
  destruct (py_getitem_str pkg "commit_hash") as [commit_hash|]; [|now left].
  destruct (py_get pkg "extended_hash") as [extended_hash|]; [|now left].
  right. split; [reflexivity|].
  exists name, dist_hash, commit_hash, extended_hash.
  apply commit_record_inserts.
Qed.

End Record.

(** ** The log *)

Lemma log_grows_refl (self : DlrnHttpData) : log_grows self self.
Proof. unfold log_grows. reflexivity. Qed.

Lemma log_grows_trans (a b c : DlrnHttpData) :
  log_grows a b -> log_grows b c -> log_grows a c.
Proof. unfold log_grows. intros Hab Hbc. now transitivity (_logger b). Qed.

Lemma raw_fetch_grows (net : network) (u : string) (lg : logger) :
  lg `prefix_of` (_raw_fetch net u lg).1.
Proof.
  unfold _raw_fetch. destruct (net u); simpl; try reflexivity.
  now apply prefix_app_r.
Qed.

Lemma fetch_yaml_grows yaml_parse (net : network) (u : string) (lg : logger) :
  lg `prefix_of` (_fetch_yaml yaml_parse net u lg).1.
Proof.
  unfold _fetch_yaml. pose proof (raw_fetch_grows net u lg) as H.
  destruct (_raw_fetch net u lg) as [lg' [[text|]|e]]; exact H.
Qed.

Lemma with_logger_grows {A} (f : logger -> logger * res A) :
  (forall lg, lg `prefix_of` (f lg).1) -> frame log_grows (with_logger f).
Proof.
  intros Hf self. unfold with_logger, log_grows. specialize (Hf (_logger self)).
  now destruct (f (_logger self)).
Qed.

Lemma log_call_grows (lv : level) (msg : string) : frame log_grows (log lv msg).
Proof. intros self. unfold log_grows. simpl. now apply prefix_app_r. Qed.

Lemma parse_csv_grows (net : network) (u : string) :
  frame log_grows (_parse_csv net u).
Proof.
  unfold _parse_csv. apply (frame_bind log_grows log_grows_trans).
  - apply with_logger_grows, raw_fetch_grows.
  - intros [data|]; [apply frame_ret, log_grows_refl|].
    apply (frame_bind log_grows log_grows_trans); [apply log_call_grows|].
    intros _. apply frame_ret, log_grows_refl.
Qed.

Lemma fetch_commit_grows yaml_parse py_str (net : network) :
  frame log_grows (_fetch_commit yaml_parse py_str net).
Proof.
  unfold _fetch_commit.
  apply (frame_bind log_grows log_grows_trans);
    [apply frame_get_self, log_grows_refl|].
  intros self. apply (frame_bind log_grows log_grows_trans).
  { apply with_logger_grows, fetch_yaml_grows. }
  intros data. apply frame_if; [apply frame_ret, log_grows_refl|].
  apply (frame_bind log_grows log_grows_trans);
    [apply frame_lift, log_grows_refl|].
  intros has. apply frame_if; [|apply frame_ret, log_grows_refl].
  repeat (apply (frame_bind log_grows log_grows_trans);
          [apply frame_lift, log_grows_refl | intros ?]).
  apply frame_if.
  - repeat (apply (frame_bind log_grows log_grows_trans);
            [apply frame_lift, log_grows_refl | intros ?]).
    intros s. unfold log_grows. simpl. reflexivity.
  - apply log_call_grows.
Qed.

Lemma versions_grows (net : network) : frame log_grows (versions net).
Proof.
  unfold versions.
  apply (frame_bind log_grows log_grows_trans);
    [apply frame_get_self, log_grows_refl|].
  intros self. apply (frame_bind log_grows log_grows_trans).
  - intros s. unfold _build_url_versions, log_grows.
    destruct (_build_url (url s) (version_hash self)) as [c r]. simpl.
    now destruct (_commit_data s !! "commit_hash").
  - intros base. apply (frame_bind log_grows log_grows_trans);
      [apply parse_csv_grows|].
    intros rows. apply frame_lift, log_grows_refl.
Qed.

Lemma get_failures_grows (net : network) : frame log_grows (get_failures net).
Proof.
  unfold get_failures.
  apply (frame_bind log_grows log_grows_trans);
    [apply frame_get_self, log_grows_refl|].
  intros self. apply (frame_bind log_grows log_grows_trans);
    [apply parse_csv_grows|].
  intros rows. apply frame_lift, log_grows_refl.
Qed.

(** X7.  The log is append-only: the constructor and every sequence of calls
    of [versions] and [get_failures] leave the records that were logged
    before in place and in order, also when a call raises. *)
Theorem log_append_only yaml_parse py_str (net : network)
  (base rel link : string) (lg : logger) (cs : list call) (self : DlrnHttpData) :
  lg `prefix_of` _logger (__init__ yaml_parse py_str net base rel link lg).1
  /\ _logger self `prefix_of` _logger (run_calls cs self).
Proof.
  split.
  - unfold __init__.
    match goal with |- _ `prefix_of` _logger (_ ?s).1 =>
      exact (fetch_commit_grows yaml_parse py_str net s) end.
  - revert self. induction cs as [|c cs IH]; intros self; [reflexivity|].
    simpl. transitivity (_logger (run_call c self)); [|apply IH].
    destruct c as [n|n]; simpl; [apply versions_grows | apply get_failures_grows].
Qed.

(** ** The URL builder, further *)

Lemma hex_like_components (h : string) :
  (4 <= String.length h)%nat ->
  str_forallb (fun c => negb (Ascii.eqb c "/")) h = true ->
  plain_component (str_slice 0 2 h) = true
  /\ plain_component (str_slice 2 4 h) = true
  /\ starts_with_sep h = false.
Proof.
  intros Hlen Hchars.
  destruct h as [|a [|b [|c [|d h]]]]; simpl in Hlen; try lia.
  simpl in Hchars.
  apply andb_prop in Hchars as [Ha Hchars].
  apply andb_prop in Hchars as [Hb Hchars].
  apply andb_prop in Hchars as [Hc Hchars].
  apply andb_prop in Hchars as [Hd _].
  unfold plain_component, str_slice. simpl.
  rewrite Ha, Hb, Hc, Hd. split; [reflexivity|]. split.
  - now destruct h.
  - now apply negb_true_iff in Ha.
Qed.

(** X8.  For a commit hash of four or more characters without a slash, a
    base that is not empty and does not end in a slash, and string dist and
    extended hashes, the builder returns base/h[0:2]/h[2:4]/h followed by
    [_] and the first eight characters of each hash that is not the
    sentinel. *)
Theorem build_url_layout (base h d e : string) :
  base <> "" -> ends_with_sep base = false ->
  (4 <= String.length h)%nat ->
  str_forallb (fun c => negb (Ascii.eqb c "/")) h = true ->
  _build_url base (hashes (PStr h) (PStr d) (PStr e))
  = (PStr h,
     Ok (base +:+ "/" +:+ str_slice 0 2 h +:+ "/" +:+ str_slice 2 4 h +:+ "/"
         +:+ h +:+ hash_suffix d +:+ hash_suffix e)).
Proof.
  intros Hb He Hlen Hchars.
  destruct (hex_like_components h Hlen Hchars) as (H1 & H2 & H3).
  rewrite build_url_strings. f_equal. f_equal.
  now apply spec_build_url_layout.
Qed.

(** X9.  Only the first eight characters of a dist or extended hash reach
    the URL: hashes that agree on them, none being the sentinel, give the
    same URL. *)
Theorem build_url_eight_chars (base h d d' e e' : string) :
  d <> "None" -> d' <> "None" -> e <> "None" -> e' <> "None" ->
  str_slice 0 8 d = str_slice 0 8 d' ->
  str_slice 0 8 e = str_slice 0 8 e' ->
  _build_url base (hashes (PStr h) (PStr d) (PStr e))
  = _build_url base (hashes (PStr h) (PStr d') (PStr e')).
Proof.
  intros Hd Hd' He He' Hds Hes. rewrite !build_url_strings.
  unfold spec_build_url, hash_suffix.
  apply String.eqb_neq in Hd, Hd', He, He'.
  now rewrite Hd, Hd', He, He', Hds, Hes.
Qed.

(** X10.  A commit hash that starts with a slash discards the base: the
    joined path is the commit hash with its suffixes alone. *)
Theorem build_url_absolute_commit (base h d e : string) :
  starts_with_sep h = true ->
  _build_url base (hashes (PStr h) (PStr d) (PStr e))
  = (PStr h, Ok (h +:+ hash_suffix d +:+ hash_suffix e)).
Proof.
  intros Hh. rewrite build_url_strings. f_equal. f_equal.
  unfold spec_build_url, path_join. simpl. unfold join_step at 1.
  destruct h as [|c h]; [discriminate|]. simpl in Hh |- *. now rewrite Hh.
Qed.

(** X11.  The URL does not tell a dist suffix from an extended suffix: a
    hash given as dist next to the sentinel extended hash gives the URL of
    the same hash given as extended next to the sentinel dist hash. *)
Theorem build_url_suffix_ambiguous (base h x : string) :
  _build_url base (hashes (PStr h) (PStr x) (PStr "None"))
  = _build_url base (hashes (PStr h) (PStr "None") (PStr x)).
Proof.
  rewrite !build_url_strings. unfold spec_build_url, hash_suffix. simpl.
  now rewrite append_empty_r.
Qed.

(** X12.  The builder returns a URL exactly when commit, dist and extended
    are all strings; then it is the path of the three strings.  Any [None],
    number, list or mapping among them makes it raise. *)
Theorem build_url_returns_iff_strings (base b : string) (hash_data : DlrnHashes) :
  (_build_url base hash_data).2 = Ok b <->
  exists h d e,
    hash_data = hashes (PStr h) (PStr d) (PStr e)
    /\ b = spec_build_url base h d e.
Proof.
  split.
  - destruct hash_data as [c d e]. intros H.
    destruct (build_url_ok_commit _ _ _ H) as [h Hh]. simpl in Hh. subst c.
    destruct d as [| | |d| |];
      try (unfold _build_url in H; simpl in H; discriminate).
    destruct e as [| | |e| |];
      try (unfold _build_url in H; simpl in H;
           destruct (String.eqb d "None"); discriminate).
    rewrite build_url_strings in H. injection H as <-. eauto.
  - intros (h & d & e & -> & ->). now rewrite build_url_strings.
Qed.

(** ** The accessors on failing fetches and malformed rows *)

Lemma set_logger_same (self : DlrnHttpData) : set_logger (_logger self) self = self.
Proof. now destruct self. Qed.

(** X13.  When fetching status_report.csv gives nothing, [get_failures] logs
    the error with the URL and returns the empty mapping, on every object:
    unlike [versions] it needs nothing of the commit record. *)
Theorem get_failures_fetch_absent (net : network) (self : DlrnHttpData)
  (lg' : logger) :
  _raw_fetch net (path_join (url self) ["status_report.csv"]) (_logger self)
  = (lg', Ok None) ->
  get_failures net self
  = (set_logger
       (lg' ++ [(ERROR, "Could not fetch "
                        +:+ path_join (url self) ["status_report.csv"] +:+ "!")])
       self,
     Ok ∅).
Proof.
  intros Hfetch. unfold get_failures, bind at 1, get_self.
  unfold _parse_csv, bind, with_logger. rewrite Hfetch.
  unfold log, ret, lift. simpl. now destruct self.
Qed.

Lemma get_failures_fetch_absent_witness :
  get_failures (fun _ => Response 404 "")
    (constructed "ERROR" (PStr "1234567890abcdef"))
  = (set_logger
       [(WARNING, "<entry> has a status of error");
        (ERROR, "Could not fetch base/release/status_report.csv!")]
       (constructed "ERROR" (PStr "1234567890abcdef")),
     Ok ∅).
Proof.
  apply (get_failures_fetch_absent (fun _ => Response 404 "")
           (constructed "ERROR" (PStr "1234567890abcdef"))
           [(WARNING, "<entry> has a status of error")]).
  reflexivity.
Defined.

(** X14.  An exception of [requests.get] other than ConnectionError is not
    caught anywhere: it comes out of [get_failures], of [versions] and of
    the constructor, and nothing is logged. *)
Theorem request_exception_propagates yaml_parse py_str (net : network)
  (self : DlrnHttpData) (base rel link : string) (lg : logger) :
  (net (path_join (url self) ["status_report.csv"]) = OtherException ->
   get_failures net self = (self, Raise RequestException))
  /\ (forall b,
        (_build_url (url self) (version_hash self)).2 = Ok b ->
        net (path_join b ["versions.csv"]) = OtherException ->
        versions net self = (self, Raise RequestException))
  /\ (net (commit_url base rel link) = OtherException ->
      __init__ yaml_parse py_str net base rel link lg
      = ({| url := path_join base [rel]; release := rel; _logger := lg;
            _link_name := link; _commit_data := ∅ |}, Raise RequestException)).
Proof.
  split; [|split].
  - intros Hnet. unfold get_failures, bind at 1, get_self.
    unfold _parse_csv, bind, with_logger, _raw_fetch. rewrite Hnet.
    now rewrite set_logger_same.
  - intros b Hurl Hnet.
    destruct (build_url_ok_commit _ _ _ Hurl) as [c Hc].
    assert (forall l, _commit_data self !! "commit_hash" <> Some (PList l)) as Hl.
    { intros l E. unfold version_hash, get_or_none in Hc. simpl in Hc.
      rewrite E in Hc. discriminate. }
    unfold versions, bind at 1, get_self. unfold bind at 1.
    rewrite (build_url_versions_same self Hl), Hurl.
    unfold _parse_csv, bind, with_logger, _raw_fetch. rewrite Hnet.
    now rewrite set_logger_same.
  - intros Hnet. unfold __init__, _fetch_commit, commit_url in *.
    unfold bind, get_self, with_logger, _fetch_yaml, _raw_fetch.
    cbn [url _link_name _logger]. now rewrite Hnet.
Qed.

Lemma request_exception_propagates_witness :
  get_failures (fun _ => OtherException)
    (constructed "SUCCESS" (PStr "1234567890abcdef"))
  = (constructed "SUCCESS" (PStr "1234567890abcdef"), Raise RequestException)
  /\ versions (fun _ => OtherException)
       (constructed "SUCCESS" (PStr "1234567890abcdef"))
     = (constructed "SUCCESS" (PStr "1234567890abcdef"), Raise RequestException)
  /\ (__init__ (yaml_fixed PNone) str_fixed (fun _ => OtherException)
        "base" "release" "current" []).2 = Raise RequestException.
Proof.
  destruct (request_exception_propagates (yaml_fixed PNone) str_fixed
              (fun _ => OtherException)
              (constructed "SUCCESS" (PStr "1234567890abcdef"))
              "base" "release" "current" []) as (H1 & H2 & H3).
  split; [apply H1; reflexivity|]. split.
  - apply (H2 "base/release/12/34/1234567890abcdef_abcd1234"); reflexivity.
  - rewrite H3; reflexivity.
Defined.

Lemma for_each_app {A R} (body : R -> A -> res R) (l1 l2 : list A)
  (fin : option exn) (acc : R) :
  for_each body (l1 ++ l2) fin acc
  = (let? acc' := for_each body l1 None acc in for_each body l2 fin acc').
Proof.
  revert acc. induction l1 as [|x l1 IH]; intros acc; [reflexivity|].
  simpl. destruct (body acc x) as [acc'|e]; [apply IH | reflexivity].
Qed.

Lemma get_failures_on_rows (net : network) (self : DlrnHttpData) (text : string)
  (rows : list (gmap (option string) cell)) (fin : option exn) :
  net (path_join (url self) ["status_report.csv"]) = Response 200 text ->
  csv.DictReader (py_split (replace_space text)) = (rows, fin) ->
  (get_failures net self).2 = for_each (failures_body (url self)) rows fin ∅.
Proof.
  intros Hnet Hrows. rewrite get_failures_result, parse_csv_result.
  unfold csv_rows. rewrite Hnet. simpl. now rewrite Hrows.
Qed.

(** X15.  A status report whose first row has no Status column makes
    [get_failures] raise KeyError, whatever the other rows are and however
    the reading of the later lines would have ended. *)
Theorem get_failures_missing_status (net : network) (self : DlrnHttpData)
  (text : string) (row : gmap (option string) cell)
  (rest : list (gmap (option string) cell)) (fin : option exn) :
  net (path_join (url self) ["status_report.csv"]) = Response 200 text ->
  csv.DictReader (py_split (replace_space text)) = (row :: rest, fin) ->
  row !! Some "Status" = None ->
  (get_failures net self).2 = Raise KeyError.
Proof.
  intros Hnet Hrows Hstatus.
  rewrite (get_failures_on_rows _ _ _ _ _ Hnet Hrows). simpl.
  unfold failures_body, row_get. now rewrite Hstatus.
Qed.

(** X16.  When every row has a Status column and none holds FAILED,
    [get_failures] returns the empty mapping: the other columns of such
    rows are never read, so they may be missing. *)
Theorem get_failures_no_failed_rows (net : network) (self : DlrnHttpData)
  (text : string) (rows : list (gmap (option string) cell)) :
  net (path_join (url self) ["status_report.csv"]) = Response 200 text ->
  csv.DictReader (py_split (replace_space text)) = (rows, None) ->
  forallb not_failed rows = true ->
  (get_failures net self).2 = Ok ∅.
Proof.
  intros Hnet Hrows Hnone.
  rewrite (get_failures_on_rows _ _ _ _ _ Hnet Hrows).
  rewrite (for_each_ok _ (fun m _ => m)).
  - f_equal. clear. induction rows as [|row rows IH]; [reflexivity | exact IH].
  - intros acc row Hin. rewrite forallb_forall in Hnone. apply Hnone in Hin.
    unfold not_failed in Hin. unfold failures_body, row_get.
    destruct (row !! Some "Status") as [c|]; [|discriminate]. simpl.
    apply negb_true_iff in Hin. now rewrite Hin.
Qed.

(** X17.  A FAILED row that is too short for the Dist_Sha column makes
    [get_failures] raise TypeError, after the rows before it were taken in:
    the absent dist hash reaches the URL builder. *)
Theorem get_failures_absent_dist_raises (net : network) (self : DlrnHttpData)
  (text : string) (good rest : list (gmap (option string) cell))
  (bad : gmap (option string) cell) (fin : option exn) :
  net (path_join (url self) ["status_report.csv"]) = Response 200 text ->
  csv.DictReader (py_split (replace_space text)) = (good ++ bad :: rest, fin) ->
  forallb (has_tokens ["Status"; "Source_Sha"; "Dist_Sha"; "Extended_Sha"; "Project"])
    good = true ->
  failed_without_dist bad = true ->
  (get_failures net self).2 = Raise TypeError.
Proof.
  intros Hnet Hrows Hgood Hbad.
  rewrite (get_failures_on_rows _ _ _ _ _ Hnet Hrows), for_each_app.
  rewrite (for_each_ok _
             (fun m row => if is_failed row
                           then <[project_key row := failure_link (url self) row]> m
                           else m)).
  - simpl. unfold failures_body, row_get. unfold failed_without_dist in Hbad.
    destruct (bad !! Some "Status") as [[|st|]|]; try discriminate.
    destruct (bad !! Some "Source_Sha") as [[|src|]|]; try discriminate.
    destruct (bad !! Some "Dist_Sha") as [[| |]|]; try discriminate.
    destruct (bad !! Some "Extended_Sha") as [ext|]; try discriminate.
    simpl. rewrite Hbad. reflexivity.
  - intros acc row Hin. apply failures_body_ok.
    rewrite forallb_forall in Hgood. now apply Hgood.
Qed.

Lemma get_failures_missing_status_witness :
  (get_failures
     (one_file "base/release/status_report.csv" report_without_status)
     (constructed "SUCCESS" (PStr "1234567890abcdef"))).2 = Raise KeyError.
Proof.
  apply (get_failures_missing_status _ _ report_without_status
           (default ∅ (rows_of report_without_status !! 0%nat))
           (drop 1 (rows_of report_without_status)) None);
    vm_compute; reflexivity.
Defined.

Lemma get_failures_no_failed_rows_witness :
  (get_failures
     (one_file "base/release/status_report.csv" report_without_failures)
     (constructed "SUCCESS" (PStr "1234567890abcdef"))).2 = Ok ∅.
Proof.
  apply (get_failures_no_failed_rows _ _ report_without_failures
           (rows_of report_without_failures));
    vm_compute; reflexivity.
Defined.

Lemma get_failures_absent_dist_raises_witness :
  (get_failures
     (one_file "base/release/status_report.csv" report_short_row)
     (constructed "SUCCESS" (PStr "1234567890abcdef"))).2 = Raise TypeError.
Proof.
  apply (get_failures_absent_dist_raises _ _ report_short_row
           (take 1 (rows_of report_short_row)) []
           (default ∅ (rows_of report_short_row !! 1%nat)) None);
    vm_compute; reflexivity.
Defined.

(** ** [versions] on rows *)

Lemma versions_on_rows (net : network) (self : DlrnHttpData) (base text : string)
  (rows : list (gmap (option string) cell)) (fin : option exn) :
  (_build_url (url self) (version_hash self)).2 = Ok base ->
  net (path_join base ["versions.csv"]) = Response 200 text ->
  csv.DictReader (py_split (replace_space text)) = (rows, fin) ->
  (versions net self).2 = for_each versions_body rows fin ∅.
Proof.
  intros Hurl Hnet Hrows. rewrite versions_result, Hurl.
  unfold csv_rows. rewrite Hnet. simpl. now rewrite Hrows.
Qed.

(** X18.  A versions.csv whose first row lacks one of the columns Project,
    Source_Sha, Status, Dist_Sha and Pkg_NVR makes [versions] raise
    KeyError: no partial mapping is returned. *)
Theorem versions_missing_column (net : network) (self : DlrnHttpData)
  (base text : string) (row : gmap (option string) cell)
  (rest : list (gmap (option string) cell)) (fin : option exn) :
  (_build_url (url self) (version_hash self)).2 = Ok base ->
  net (path_join base ["versions.csv"]) = Response 200 text ->
  csv.DictReader (py_split (replace_space text)) = (row :: rest, fin) ->
  has_fields ["Project"; "Source_Sha"; "Status"; "Dist_Sha"; "Pkg_NVR"] row
  = false ->
  (versions net self).2 = Raise KeyError.
Proof.
  intros Hurl Hnet Hrows Hmissing.
  rewrite (versions_on_rows _ _ _ _ _ _ Hurl Hnet Hrows). simpl.
  unfold versions_body, row_get. unfold has_fields in Hmissing.
  simpl in Hmissing.
  destruct (row !! Some "Source_Sha") as [s|]; [|reflexivity].
  destruct (row !! Some "Status") as [st|]; [|reflexivity].
  destruct (row !! Some "Dist_Sha") as [d|]; [|reflexivity].
  destruct (row !! Some "Pkg_NVR") as [n|]; [|reflexivity].
  destruct (row !! Some "Project") as [p|]; [|reflexivity].
  rewrite !bool_decide_eq_true_2 in Hmissing by eauto. discriminate.
Qed.

Lemma versions_missing_column_witness :
  (versions
     (one_file "base/release/12/34/1234567890abcdef_abcd1234/versions.csv"
        status_report)
     (constructed "SUCCESS" (PStr "1234567890abcdef"))).2 = Raise KeyError.
Proof.
  apply (versions_missing_column _ _
           "base/release/12/34/1234567890abcdef_abcd1234" status_report
           (default ∅ (rows_of status_report !! 0%nat))
           (drop 1 (rows_of status_report)) None);
    vm_compute; reflexivity.
Defined.

(** ** What a call depends on *)

Lemma parse_csv_net (net net' : network) (u : string) (self : DlrnHttpData) :
  net u = net' u -> _parse_csv net u self = _parse_csv net' u self.
Proof.
  intros H. unfold _parse_csv, bind, with_logger, _raw_fetch. now rewrite H.
Qed.

Lemma versions_unfold (net : network) (self : DlrnHttpData) :
  versions net self
  = (let '(self', r) := _build_url_versions (version_hash self) self in
     match r with
     | Ok base =>
         (rows <- _parse_csv net (path_join base ["versions.csv"]) ;;
          lift (for_each versions_body rows.1 rows.2 ∅))%method self'
     | Raise e => (self', Raise e)
     end).
Proof. reflexivity. Qed.

(** X19.  Each accessor reads one resource: [get_failures] depends on the
    network only through url/status_report.csv, and [versions] only through
    versions.csv under the URL built from the commit record; what the
    network holds elsewhere changes neither result, log nor object. *)
Theorem accessors_read_one_url (net net' : network) (self : DlrnHttpData) :
  (net (path_join (url self) ["status_report.csv"])
   = net' (path_join (url self) ["status_report.csv"]) ->
   get_failures net self = get_failures net' self)
  /\ ((forall base,
         (_build_url (url self) (version_hash self)).2 = Ok base ->
         net (path_join base ["versions.csv"])
         = net' (path_join base ["versions.csv"])) ->
      versions net self = versions net' self).
Proof.
  split.
  - intros H. unfold get_failures, bind at 1 3, get_self.
    unfold bind. now rewrite (parse_csv_net net net' _ self H).
  - intros H. rewrite !versions_unfold.
    assert ((_build_url_versions (version_hash self) self).2
            = (_build_url (url self) (version_hash self)).2) as E.
    { unfold _build_url_versions.
      now destruct (_build_url (url self) (version_hash self)). }
    destruct (_build_url_versions (version_hash self) self) as [s' [base|e]];
      [|reflexivity].
    simpl in E. symmetry in E. unfold bind.
    now rewrite (parse_csv_net net net' _ s' (H base E)).
Qed.

Lemma accessors_read_one_url_witness :
  get_failures (one_file "base/release/status_report.csv" status_report)
    (constructed "SUCCESS" (PStr "1234567890abcdef"))
  = get_failures
      (fun u => if String.eqb u "base/release/status_report.csv"
                then Response 200 status_report else OtherException)
      (constructed "SUCCESS" (PStr "1234567890abcdef"))
  /\ versions
       (one_file "base/release/12/34/1234567890abcdef_abcd1234/versions.csv"
          versions_csv)
       (constructed "SUCCESS" (PStr "1234567890abcdef"))
     = versions
         (fun u =>
            if String.eqb u
                 "base/release/12/34/1234567890abcdef_abcd1234/versions.csv"
            then Response 200 versions_csv else ConnectionError "<request>")
         (constructed "SUCCESS" (PStr "1234567890abcdef")).
Proof.
  split.
  - apply (proj1 (accessors_read_one_url _ _ _)). reflexivity.
  - apply (proj2 (accessors_read_one_url _ _ _)).
    intros base Hbase. vm_compute in Hbase. injection Hbase as <-. reflexivity.
Defined.

Lemma append_hashes_list (hash_data : DlrnHashes) (keys : list string)
  (l : list pyval) :
  exists l', (append_hashes hash_data keys (PList l)).1 = PList l'.
Proof.
  revert l. induction keys as [|key keys IH]; intros l; [now exists l|].
  simpl. destruct (is_str "None" (getattr_hash hash_data key)); [apply IH|].
  destruct (py_slice (getattr_hash hash_data key) 0 8) as [part|e];
    [|now exists l].
  simpl. destruct (py_str_add "_" part) as [suffix|e]; [|now exists l].
  simpl. apply IH.
Qed.

(** On a commit hash that is a list the builder raises TypeError and leaves
    a list. *)
Lemma build_url_list (u : string) (hash_data : DlrnHashes) (l : list pyval) :
  commit hash_data = PList l ->
  exists l', _build_url u hash_data = (PList l', Raise TypeError).
Proof.
  intros Hc. unfold _build_url. rewrite Hc. cbn [py_slice].
  destruct (append_hashes_list hash_data ["dist"; "extended"] l) as [l' Hl'].
  destruct (append_hashes hash_data ["dist"; "extended"] (PList l))
    as [third r] eqn:E.
  simpl in Hl'. subst third. exists l'. f_equal.
  destruct r as [[]|e]; [reflexivity|].
  (* the loop raises TypeError only *)
  assert (forall keys third third' e',
             append_hashes hash_data keys third = (third', Raise e') ->
             e' = TypeError) as Herr.
  { clear. induction keys as [|key keys IH]; intros third third' e' H;
      [discriminate|].
    simpl in H.
    destruct (is_str "None" (getattr_hash hash_data key)); [now apply IH in H|].
    destruct (getattr_hash hash_data key) as [| | |s|l0|d]; simpl in H;
      try (now injection H as _ <-).
    - destruct third; simpl in H; try (now injection H as _ <-);
        now apply IH in H.
  }
  now rewrite (Herr _ _ _ _ E).
Qed.

Lemma classic_list_commit_hash (self : DlrnHttpData) :
  list_commit_hash self \/ ~ list_commit_hash self.
Proof.
  unfold list_commit_hash.
  destruct (_commit_data self !! "commit_hash") as [[| | | |l|]|];
    try (right; intros [l' H]; discriminate).
  left. now exists l.
Qed.

Lemma versions_list_commit_hash (net : network) (self : DlrnHttpData) :
  list_commit_hash self ->
  (versions net self).2 = Raise TypeError
  /\ list_commit_hash (versions net self).1
  /\ url (versions net self).1 = url self.
Proof.
  intros [l Hl].
  destruct (build_url_list (url self) (version_hash self) l) as [l' Hb].
  { unfold version_hash, get_or_none. simpl. now rewrite Hl. }
  rewrite versions_unfold. unfold _build_url_versions. rewrite Hb, Hl.
  cbn [fst snd]. split; [reflexivity|]. split; [|reflexivity].
  exists l'. unfold set_commit_data. cbn [_commit_data].
  apply lookup_insert_eq.
Qed.

(** X20.  What an accessor returns does not depend on the calls made
    before: after any sequence of calls of [versions] and [get_failures],
    each of them returns, on the same network, what it would have returned
    on the object as constructed. *)
Theorem accessor_results_repeatable (net : network) (cs : list call)
  (self : DlrnHttpData) :
  (versions net (run_calls cs self)).2 = (versions net self).2
  /\ (get_failures net (run_calls cs self)).2 = (get_failures net self).2.
Proof.
  assert (url (run_calls cs self) = url self
          /\ (_commit_data (run_calls cs self) = _commit_data self
              \/ (list_commit_hash self /\ list_commit_hash (run_calls cs self))))
    as [Hu Hcd].
  { revert self. induction cs as [|c cs IH]; intros self; [now split; [|left]|].
    simpl. destruct (IH (run_call c self)) as [IHu IHcd]. clear IH.
    assert (url (run_call c self) = url self
            /\ (_commit_data (run_call c self) = _commit_data self
                \/ (list_commit_hash self /\ list_commit_hash (run_call c self))))
      as [Hu1 Hcd1].
    { destruct c as [n|n]; simpl.
      - destruct (classic_list_commit_hash self) as [Hlist|Hnot].
        + destruct (versions_list_commit_hash n self Hlist) as (_ & ? & ?).
          split; [assumption|]. right. now split.
        + destruct (versions_frame n self) as [[? _] ?].
          { intros l E. apply Hnot. now exists l. }
          split; [assumption | now left].
      - destruct (get_failures_frame n self) as [[? _] ?].
        split; [assumption | now left]. }
    split; [congruence|].
    destruct IHcd as [IHeq | [IHl IHl']].
    - rewrite IHeq. destruct Hcd1 as [?|[? ?]]; [now left|].
      right. split; [assumption|].
      destruct H0 as [l Hl]. exists l. now rewrite IHeq.
    - right. split; [|assumption].
      destruct Hcd1 as [Heq|[? _]]; [|assumption].
      destruct IHl as [l Hl]. exists l. now rewrite <- Heq. }
  split.
  - destruct Hcd as [Heq | [Hl Hl']].
    + rewrite !versions_result. unfold version_hash. now rewrite Hu, Heq.
    + destruct (versions_list_commit_hash net _ Hl) as [-> _].
      now destruct (versions_list_commit_hash net _ Hl') as [-> _].
  - now apply get_failures_by_url.
Qed.

(** ** The characters of the cells *)

Lemma str_forallb_append (p : ascii -> bool) (a b : string) :
  str_forallb p (a +:+ b) = str_forallb p a && str_forallb p b.
Proof.
  induction a as [|c a IH]; [reflexivity|]. simpl.
  now rewrite IH, andb_assoc.
Qed.

Lemma save_field_chars (p : ascii -> bool) (r : csv.ReaderObj) :
  reader_chars p r -> reader_chars p (csv.parse_save_field r).
Proof.
  intros [Hfs Hf]. split; [|reflexivity]. simpl.
  apply Forall_app. split; [exact Hfs | now constructor].
Qed.

Lemma with_state_chars (p : ascii -> bool) (st : csv.reader_state)
  (r : csv.ReaderObj) :
  reader_chars p r -> reader_chars p (csv.with_state st r).
Proof. now intros [Hfs Hf]. Qed.

Lemma add_char_chars (p : ascii -> bool) (r r' : csv.ReaderObj) (c : ascii) :
  p c = true -> reader_chars p r -> csv.parse_add_char r c = Ok r' ->
  reader_chars p r'.
Proof.
  intros Hc [Hfs Hf]. unfold csv.parse_add_char.
  destruct (_ <=? _)%N; [discriminate|]. intros [= <-].
  split; [exact Hfs|]. simpl. rewrite str_forallb_append, Hf. simpl.
  now rewrite Hc.
Qed.

Create HintDb reader.

#[local] Hint Resolve save_field_chars with_state_chars : reader.

(** A step of the reader stores no character but the one it is given. *)
Lemma process_char_chars (p : ascii -> bool) (r r' : csv.ReaderObj)
  (c : option ascii) :
  (forall ch, c = Some ch -> p ch = true) ->
  reader_chars p r -> csv.parse_process_char r c = Ok r' -> reader_chars p r'.
Proof.
  intros Hc Hr. unfold csv.parse_process_char.
  destruct (csv.state r), c as [ch|];
    repeat match goal with
      | |- context [if ?b then _ else _] => destruct b
      end;
    try (intros [= <-]; auto with reader);
    try discriminate;
    try (intros H; eapply add_char_chars; [apply Hc; reflexivity | | exact H];
         auto with reader);
    try (destruct (csv.parse_add_char _ ch) as [r1|] eqn:E; simpl;
         [intros [= <-] | discriminate];
         apply with_state_chars;
         eapply add_char_chars; [apply Hc; reflexivity | | exact E];
         auto with reader).
Qed.

Lemma process_line_chars (p : ascii -> bool) (line : string) :
  forall r r' : csv.ReaderObj,
    str_forallb p line = true -> reader_chars p r ->
    csv.process_line r line = Ok r' -> reader_chars p r'.
Proof.
  induction line as [|c line IH]; intros r r' Hline Hr; simpl.
  - now intros [= <-].
  - simpl in Hline. apply andb_prop in Hline as [Hc Hline].
    destruct (Ascii.eqb c "000"); [discriminate|].
    destruct (csv.parse_process_char r (Some c)) as [r1|] eqn:E;
      [|discriminate].
    simpl. apply IH; [exact Hline|].
    eapply process_char_chars; [|exact Hr|exact E]. now intros ch [= <-].
Qed.

Lemma reader_records_chars (p : ascii -> bool) (lines : list string) :
  forall r : csv.ReaderObj,
    Forall (fun line => str_forallb p line = true) lines ->
    reader_chars p r ->
    Forall (Forall (fun f => str_forallb p f = true))
      (csv.reader_records r lines).1.
Proof.
  induction lines as [|line lines IH]; intros r Hlines Hr; simpl.
  - destruct (_ || _); [|constructor].
    constructor; [|constructor]. now destruct (save_field_chars p r Hr).
  - inversion Hlines as [|? ? Hline Hrest]; subst.
    destruct (csv.process_line r line) as [r1|] eqn:E1; [|constructor].
    simpl. destruct (csv.parse_process_char r1 None) as [r2|] eqn:E2;
      [|constructor].
    assert (reader_chars p r2) as Hr2.
    { eapply process_char_chars; [|eapply process_line_chars; eauto|exact E2].
      discriminate. }
    destruct (csv.at_start_record r2).
    + specialize (IH csv.parse_reset Hrest).
      destruct (csv.reader_records csv.parse_reset lines) as [recs fin].
      simpl in *. constructor; [now destruct Hr2|].
      apply IH. split; [constructor | reflexivity].
    + now apply IH.
Qed.

Lemma dict_row_chars (p : ascii -> bool) (fieldnames row : list string) :
  Forall (fun f => str_forallb p f = true) fieldnames ->
  Forall (fun f => str_forallb p f = true) row ->
  map_Forall
    (fun k c => clean_cell p c = true
                /\ forall name, k = Some name -> str_forallb p name = true)
    (csv.dict_row fieldnames row).
Proof.
  intros Hf Hr. unfold csv.dict_row.
  set (Q := fun (k : option string) (c : cell) =>
              clean_cell p c = true
              /\ forall name, k = Some name -> str_forallb p name = true).
  assert (map_Forall Q
            (foldl (fun (d : gmap (option string) cell) (kv : string * string) =>
                      <[Some kv.1 := CStr kv.2]> d) ∅ (zip fieldnames row)))
    as Hd.
  { assert (Forall (fun kv : string * string =>
                      str_forallb p kv.1 = true /\ str_forallb p kv.2 = true)
              (zip fieldnames row)) as Hz.
    { clear -Hf Hr. revert row Hr.
      induction Hf as [|f fs Hf0 Hf IH]; intros row Hr; [constructor|].
      destruct Hr as [|c cs Hc Hr]; [constructor|].
      simpl. constructor; [now split | now apply IH]. }
    revert Hz. generalize (zip fieldnames row). intros l Hl.
    assert (map_Forall Q (∅ : gmap (option string) cell)) as H0
      by apply map_Forall_empty.
    revert H0. generalize (∅ : gmap (option string) cell).
    induction Hl as [|[k v] l [Hk Hv] Hl IH]; intros d Hd0; [exact Hd0|].
    simpl. apply IH. apply map_Forall_insert_2; [|exact Hd0].
    split; [exact Hv|]. now intros name [= <-]. }
  destruct (_ <? _)%nat.
  - apply map_Forall_insert_2; [|exact Hd]. split; [|discriminate].
    assert (Forall (fun f => str_forallb p f = true)
              (drop (length fieldnames) row)) as Hdr
      by (apply Forall_drop; exact Hr).
    rewrite Forall_forall in Hdr. simpl. apply forallb_forall. intros x Hx.
    now apply Hdr, list_elem_of_In.
  - assert (Forall (fun f => str_forallb p f = true)
              (drop (length row) fieldnames)) as Hrest.
    { apply Forall_drop. exact Hf. }
    revert Hd. generalize (drop (length row) fieldnames) Hrest.
    clear -Q. intros l Hl. 
    match goal with |- map_Forall Q ?d0 -> _ => generalize d0 end.
    induction Hl as [|k l Hk Hl IH]; intros d Hd0; [exact Hd0|].
    simpl. apply IH. apply map_Forall_insert_2; [|exact Hd0].
    split; [reflexivity|]. now intros name [= <-].
Qed.

Lemma py_split_no_space (s : string) :
  Forall (fun t => str_forallb not_space t = true) (py_split s).
Proof.
  assert (str_forallb (fun _ => true) s = true) as Hs
    by (induction s; [reflexivity | assumption]).
  pose proof (split_on_tokens is_space (fun _ => true) s Hs) as H.
  unfold py_split. eapply Forall_impl; [exact H|].
  intros t [_ Ht]. revert Ht. apply str_forallb_impl. now intros c.
Qed.

Lemma dict_reader_chars (p : ascii -> bool) (lines : list string) :
  Forall (fun line => str_forallb p line = true) lines ->
  Forall
    (map_Forall
       (fun k c => clean_cell p c = true
                   /\ forall name, k = Some name -> str_forallb p name = true))
    (csv.DictReader lines).1.
Proof.
  intros Hlines. unfold csv.DictReader, csv.reader.
  pose proof (reader_records_chars p lines csv.parse_reset Hlines) as Hrecs.
  destruct (csv.reader_records csv.parse_reset lines) as [[|fieldnames recs] fin];
    [constructor|].
  simpl in *.
  assert (reader_chars p csv.parse_reset) as H0 by (split; [constructor | reflexivity]).
  specialize (Hrecs H0).
  inversion Hrecs as [|? ? Hf Hrest]; subst.
  apply Forall_forall. intros row Hin.
  apply list_elem_of_In, in_map_iff in Hin as (rec & <- & Hin).
  apply filter_In in Hin as [Hin _].
  apply dict_row_chars; [exact Hf|].
  rewrite Forall_forall in Hrest. now apply Hrest, list_elem_of_In.
Qed.

(** X21.  No cell and no column name that [_parse_csv] yields holds white
    space, for any text: spaces have become underscores and every other
    white space has split the text, inside quoted cells too. *)
Theorem cells_without_white_space (net : network) (u : string)
  (self : DlrnHttpData) (rows : list (gmap (option string) cell))
  (fin : option exn) (i : nat) (row : gmap (option string) cell)
  (k : option string) (c : cell) :
  (_parse_csv net u self).2 = Ok (rows, fin) ->
  rows !! i = Some row ->
  row !! k = Some c ->
  clean_cell not_space c = true
  /\ forall name, k = Some name -> str_forallb not_space name = true.
Proof.
  rewrite parse_csv_result. unfold csv_rows. intros Hrows Hrow Hc.
  assert (rows = [] \/ exists text,
             rows = (csv.DictReader (py_split (replace_space text))).1)
    as [-> | [text ->]].
  { destruct (net u) as [code text| |]; [|injection Hrows; auto|discriminate].
    destruct (code =? 200)%Z; [|injection Hrows; auto].
    injection Hrows as Hrows. right. exists text. now rewrite Hrows. }
  - now rewrite lookup_nil in Hrow.
  - pose proof (dict_reader_chars not_space _
                  (py_split_no_space (replace_space text))) as H.
    rewrite Forall_forall in H.
    apply (H row); [|exact Hc]. eapply list_elem_of_lookup_2. exact Hrow.
Qed.

Lemma cells_without_white_space_witness :
  clean_cell not_space (CStr "foo_bar-1.0_1") = true
  /\ forall name, Some "Pkg_NVR" = Some name -> str_forallb not_space name = true.
Proof.
  apply (cells_without_white_space (one_file "u" report_with_spaces) "u"
           (constructed "SUCCESS" (PStr "1234567890abcdef"))
           (rows_of report_with_spaces) None 0
           (default ∅ (rows_of report_with_spaces !! 0%nat))
           (Some "Pkg_NVR") (CStr "foo_bar-1.0_1"));
    vm_compute; reflexivity.
Defined.

(** X22.  A text of at most one line yields no rows: the only line names
    the columns.  So an empty status report, or one with a header alone,
    has no failures. *)
Theorem single_line_no_rows (net : network) (u text : string)
  (self : DlrnHttpData) :
  net u = Response 200 text ->
  (length (py_split (replace_space text)) <= 1)%nat ->
  exists fin, (_parse_csv net u self).2 = Ok ([], fin).
Proof.
  intros Hnet Hlen. rewrite parse_csv_result. unfold csv_rows.
  rewrite Hnet. simpl.
  destruct (py_split (replace_space text)) as [|line [|line' lines]];
    simpl in Hlen; try lia.
  - now exists None.
  - unfold csv.DictReader, csv.reader. simpl.
    destruct (csv.process_line csv.parse_reset line) as [r1|e];
      [|now exists (Some e)].
    simpl. destruct (csv.parse_process_char r1 None) as [r2|e];
      [|now exists (Some e)].
    destruct (csv.at_start_record r2); [now exists None|].
    destruct (_ || _); now exists None.
Qed.

Lemma single_line_no_rows_witness :
  exists fin,
    (_parse_csv
       (one_file "base/release/status_report.csv"
          "Project,Status,Source Sha,Dist Sha,Extended Sha")
       "base/release/status_report.csv"
       (constructed "SUCCESS" (PStr "1234567890abcdef"))).2 = Ok ([], fin).
Proof.
  apply single_line_no_rows with
    (text := "Project,Status,Source Sha,Dist Sha,Extended Sha").
  - reflexivity.
  - vm_compute. lia.
Defined.

(** ** The factory *)

Section FactoryProperties.

Variable ConfigManager : list pyval -> res pyval.
Variable yaml_parse : string -> res pyval.
Variable py_str : pyval -> string.

#[local] Abbreviation factory :=
  (dlrn_http_factory ConfigManager yaml_parse py_str).

(** X23.  For a host the configuration does not name, the factory returns
    nothing: it constructs no object, fetches nothing and logs nothing,
    whatever link name was asked for. *)
Theorem factory_unknown_host (net : network) (host : string)
  (config_file link_name : pyval) (lg : logger) (config : list (pyval * pyval)) :
  ConfigManager (factory_files config_file) = Ok (PDict config) ->
  dict_get_str host config = None ->
  factory net host config_file link_name lg = (lg, Ok None).
Proof.
  intros Hconfig Hhost. unfold dlrn_http_factory, factory_settings.
  rewrite Hconfig. simpl. now rewrite Hhost.
Qed.

(** X24.  For a host whose settings hold url, release and link as strings,
    the factory constructs the object for that url and release; its link
    name is the [link_name] argument when one is given, else the link of
    the configuration. *)
Theorem factory_link_override (net : network) (host : string)
  (config_file : pyval) (lg : logger) (config settings : list (pyval * pyval))
  (u r l l' : string) :
  ConfigManager (factory_files config_file) = Ok (PDict config) ->
  dict_get_str host config = Some (PDict settings) ->
  dict_get_str "url" settings = Some (PStr u) ->
  dict_get_str "release" settings = Some (PStr r) ->
  dict_get_str "link" settings = Some (PStr l) ->
  factory net host config_file PNone lg
  = (let new := __init__ yaml_parse py_str net u r l lg in
     (_logger new.1, let? _ := new.2 in Ok (Some new.1)))
  /\ factory net host config_file (PStr l') lg
     = (let new := __init__ yaml_parse py_str net u r l' lg in
        (_logger new.1, let? _ := new.2 in Ok (Some new.1))).
Proof.
  intros Hconfig Hhost Hu Hr Hl.
  unfold dlrn_http_factory, factory_settings, new_DlrnHttpData.
  rewrite Hconfig. simpl. rewrite Hhost. simpl. rewrite Hl, Hu, Hr. simpl.
  split.
  - destruct (__init__ yaml_parse py_str net u r l lg) as [self [[]|e]];
      reflexivity.
  - destruct (__init__ yaml_parse py_str net u r l' lg) as [self [[]|e]];
      reflexivity.
Qed.

(** X25.  The link of the configuration is read before the [link_name]
    argument is looked at: settings without a link make the factory raise
    KeyError even when a link name is given, and nothing is fetched. *)
Theorem factory_missing_link (net : network) (host : string)
  (config_file link_name : pyval) (lg : logger)
  (config settings : list (pyval * pyval)) :
  ConfigManager (factory_files config_file) = Ok (PDict config) ->
  dict_get_str host config = Some (PDict settings) ->
  dict_get_str "link" settings = None ->
  factory net host config_file link_name lg = (lg, Raise KeyError).
Proof.
  intros Hconfig Hhost Hl. unfold dlrn_http_factory, factory_settings.
  rewrite Hconfig. simpl. rewrite Hhost. simpl. now rewrite Hl.
Qed.

End FactoryProperties.

Lemma factory_unknown_host_witness :
  dlrn_http_factory
    (one_host "rdo" [(PStr "url", PStr "base"); (PStr "release", PStr "release");
                     (PStr "link", PStr "current")])
    (yaml_fixed PNone) str_fixed (fun _ => OtherException)
    "centos" PNone (PStr "consistent") []
  = ([], Ok None).
Proof.
  apply (factory_unknown_host _ _ _ _ _ _ _ _
           [(PStr "rdo",
             PDict [(PStr "url", PStr "base"); (PStr "release", PStr "release");
                    (PStr "link", PStr "current")])]);
    reflexivity.
Defined.

Lemma factory_link_override_witness :
  (forall self,
      (dlrn_http_factory
         (one_host "rdo" [(PStr "url", PStr "base");
                          (PStr "release", PStr "release");
                          (PStr "link", PStr "current")])
         (yaml_fixed PNone) str_fixed (fun _ => Response 404 "")
         "rdo" PNone PNone []).2 = Ok (Some self) ->
      _link_name self = "current")
  /\ (forall self,
        (dlrn_http_factory
           (one_host "rdo" [(PStr "url", PStr "base");
                            (PStr "release", PStr "release");
                            (PStr "link", PStr "current")])
           (yaml_fixed PNone) str_fixed (fun _ => Response 404 "")
           "rdo" PNone (PStr "consistent") []).2 = Ok (Some self) ->
        _link_name self = "consistent").
Proof.
  destruct (factory_link_override
              (one_host "rdo" [(PStr "url", PStr "base");
                               (PStr "release", PStr "release");
                               (PStr "link", PStr "current")])
              (yaml_fixed PNone) str_fixed (fun _ => Response 404 "")
              "rdo" PNone []
              [(PStr "rdo",
                PDict [(PStr "url", PStr "base");
                       (PStr "release", PStr "release");
                       (PStr "link", PStr "current")])]
              [(PStr "url", PStr "base"); (PStr "release", PStr "release");
               (PStr "link", PStr "current")]
              "base" "release" "current" "consistent")
    as [H1 H2]; try reflexivity.
  split; intros self.
  - rewrite H1. vm_compute. now intros [= <-].
  - rewrite H2. vm_compute. now intros [= <-].
Defined.

Lemma factory_missing_link_witness :
  dlrn_http_factory
    (one_host "rdo" [(PStr "url", PStr "base"); (PStr "release", PStr "release")])
    (yaml_fixed PNone) str_fixed (fun _ => OtherException)
    "rdo" PNone (PStr "consistent") []
  = ([], Raise KeyError).
Proof.
  apply (factory_missing_link _ _ _ _ _ _ _ _
           [(PStr "rdo",
             PDict [(PStr "url", PStr "base"); (PStr "release", PStr "release")])]
           [(PStr "url", PStr "base"); (PStr "release", PStr "release")]);
    reflexivity.
Defined.

(** ** From construction to [versions] *)

Section Composition.

Variable yaml_parse : string -> res pyval.
Variable py_str : pyval -> string.

Lemma init_success (net : network) (base rel link text : string) (lg : logger)
  (d pkg : list (pyval * pyval)) (rest : list pyval)
  (name dist_hash commit_hash : pyval) :
  net (commit_url base rel link) = Response 200 text ->
  yaml_parse text = Ok (PDict d) ->
  dict_get_str "commits" d = Some (PList (PDict pkg :: rest)) ->
  dict_get_str "status" pkg = Some (PStr "SUCCESS") ->
  dict_get_str "project_name" pkg = Some name ->
  dict_get_str "distro_hash" pkg = Some dist_hash ->
  dict_get_str "commit_hash" pkg = Some commit_hash ->
  __init__ yaml_parse py_str net base rel link lg
  = ({| url := path_join base [rel]; release := rel; _logger := lg;
        _link_name := link;
        _commit_data :=
          commit_record name dist_hash commit_hash
            (default PNone (dict_get_str "extended_hash" pkg)) |}, Ok tt).
Proof.
  intros Hnet Hyaml Hcommits Hstatus Hname Hdist Hcommit.
  rewrite (init_fetches_entry _ _ _ _ _ _ _ _ _ _ _ Hnet Hyaml Hcommits).
  unfold bind, lift, py_getitem_str, py_get, assign_commit_data.
  rewrite Hstatus. cbn [is_str String.eqb Ascii.eqb Bool.eqb].
  rewrite Hname, Hdist, Hcommit. unfold set_commit_data. simpl.
  now rewrite commit_record_inserts.
Qed.

Lemma version_hash_of_record (u rel link : string) (lg : logger)
  (name dist_hash commit_hash extended_hash : pyval) :
  version_hash
    {| url := u; release := rel; _logger := lg; _link_name := link;
       _commit_data := commit_record name dist_hash commit_hash extended_hash |}
  = hashes commit_hash dist_hash extended_hash.
Proof.
  unfold version_hash, get_or_none, commit_record. simpl.
  now simplify_map_eq.
Qed.


(** X27.  After construction from a SUCCESS entry with string commit and
    distro hashes and no [extended_hash], [versions] raises TypeError on
    every network: the optional key, when left out, makes the accessor
    unusable. *)
Theorem versions_without_extended_hash (net net' : network)
  (base rel link text : string) (lg : logger) (d pkg : list (pyval * pyval))
  (rest : list pyval) (name : pyval) (h dh : string) :
  net (commit_url base rel link) = Response 200 text ->
  yaml_parse text = Ok (PDict d) ->
  dict_get_str "commits" d = Some (PList (PDict pkg :: rest)) ->
  dict_get_str "status" pkg = Some (PStr "SUCCESS") ->
  dict_get_str "project_name" pkg = Some name ->
  dict_get_str "distro_hash" pkg = Some (PStr dh) ->
  dict_get_str "commit_hash" pkg = Some (PStr h) ->
  dict_get_str "extended_hash" pkg = None ->
  (versions net' (__init__ yaml_parse py_str net base rel link lg).1).2
  = Raise TypeError.
Proof.
  intros Hnet Hyaml Hcommits Hstatus Hname Hdist Hcommit Hext.
  rewrite (init_success _ _ _ _ _ _ _ _ _ _ _ _ Hnet Hyaml Hcommits Hstatus
             Hname Hdist Hcommit).
  rewrite Hext. change (default PNone None) with PNone.
  cbn [fst]. rewrite versions_result, version_hash_of_record. cbn [url].
  unfold _build_url. simpl. now destruct (String.eqb dh "None").
Qed.

End Composition.


Lemma versions_without_extended_hash_witness :
  (versions (fun _ => Response 404 "") constructed_without_extended).2
  = Raise TypeError.
Proof.
  apply (versions_without_extended_hash
           (yaml_fixed
              (PDict [(PStr "commits",
                       PList [PDict [(PStr "status", PStr "SUCCESS");
                                     (PStr "project_name", PStr "foo");
                                     (PStr "distro_hash", PStr "abcd1234");
                                     (PStr "commit_hash", PStr "1234567890abcdef")]])]))
           str_fixed
           (one_file "base/release/current/commit.yaml" "commits: ...")
           _ "base" "release" "current" "commits: ..." []
           [(PStr "commits",
             PList [PDict [(PStr "status", PStr "SUCCESS");
                           (PStr "project_name", PStr "foo");
                           (PStr "distro_hash", PStr "abcd1234");
                           (PStr "commit_hash", PStr "1234567890abcdef")]])]
           [(PStr "status", PStr "SUCCESS"); (PStr "project_name", PStr "foo");
            (PStr "distro_hash", PStr "abcd1234");
            (PStr "commit_hash", PStr "1234567890abcdef")] []
           (PStr "foo") "1234567890abcdef" "abcd1234");
    reflexivity.
Defined.

(** ** Instances *)

Lemma fetch_yaml_absent_witness :
  _fetch_yaml (fun _ => Raise YAMLError) (fun _ => Response 204 "") "u" []
  = ([], Ok PNone).
Proof.
  apply (fetch_yaml_absent (fun _ => Raise YAMLError) (fun _ => Response 204 "")).
  reflexivity.
Defined.

Lemma init_without_commits_witness :
  __init__ (yaml_fixed (PDict [(PStr "builds", PList [])])) str_fixed
    (one_file "base/release/current/commit.yaml" "builds: []")
    "base" "release" "current" []
  = ({| url := "base/release"; release := "release"; _logger := [];
        _link_name := "current"; _commit_data := ∅ |}, Ok tt).
Proof.
  apply (init_without_commits (yaml_fixed (PDict [(PStr "builds", PList [])]))
           str_fixed
           (one_file "base/release/current/commit.yaml" "builds: []")
           "base" "release" "current" "builds: []" []
           [(PStr "builds", PList [])]);
    reflexivity.
Defined.

Lemma init_first_entry_only_witness :
  __init__
    (yaml_fixed
       (PDict [(PStr "commits",
                PList [commit_entry "ERROR" (PStr "1234567890abcdef");
                       commit_entry "SUCCESS" (PStr "fedcba0987654321")])]))
    str_fixed (one_file "base/release/current/commit.yaml" "commits: ...")
    "base" "release" "current" []
  = __init__ (yaml_fixed (commit_yaml "ERROR" (PStr "1234567890abcdef")))
      str_fixed (one_file "base/release/current/commit.yaml" "commits: ...")
      "base" "release" "current" [].
Proof.
  apply (init_first_entry_only _ str_fixed _ _ _ "base" "release" "current"
           "commits: ..." "commits: ..." []
           [(PStr "commits",
             PList [commit_entry "ERROR" (PStr "1234567890abcdef");
                    commit_entry "SUCCESS" (PStr "fedcba0987654321")])]
           [(PStr "commits", PList [commit_entry "ERROR" (PStr "1234567890abcdef")])]
           (commit_entry "ERROR" (PStr "1234567890abcdef"))
           [commit_entry "SUCCESS" (PStr "fedcba0987654321")] []);
    reflexivity.
Defined.

Lemma init_missing_key_raises_witness :
  __init__
    (yaml_fixed
       (PDict [(PStr "commits",
                PList [PDict [(PStr "status", PStr "SUCCESS");
                              (PStr "project_name", PStr "foo");
                              (PStr "commit_hash", PStr "1234567890abcdef")]])]))
    str_fixed (one_file "base/release/current/commit.yaml" "commits: ...")
    "base" "release" "current" []
  = ({| url := "base/release"; release := "release"; _logger := [];
        _link_name := "current"; _commit_data := ∅ |}, Raise KeyError).
Proof.
  apply (init_missing_key_raises _ str_fixed _ "base" "release" "current"
           "commits: ..." []
           [(PStr "commits",
             PList [PDict [(PStr "status", PStr "SUCCESS");
                           (PStr "project_name", PStr "foo");
                           (PStr "commit_hash", PStr "1234567890abcdef")]])]
           [(PStr "status", PStr "SUCCESS"); (PStr "project_name", PStr "foo");
            (PStr "commit_hash", PStr "1234567890abcdef")] []);
    try reflexivity.
  right. split; [reflexivity|]. right. left. reflexivity.
Defined.

Lemma build_url_layout_witness :
  _build_url "https://trunk.example.org/centos9-master"
    (hashes (PStr "1234567890abcdef") (PStr "abcd1234aaaa") (PStr "None"))
  = (PStr "1234567890abcdef",
     Ok "https://trunk.example.org/centos9-master/12/34/1234567890abcdef_abcd1234").
Proof.
  rewrite (build_url_layout "https://trunk.example.org/centos9-master"
             "1234567890abcdef" "abcd1234aaaa" "None");
    [reflexivity | discriminate | reflexivity | vm_compute; lia | reflexivity].
Defined.

Lemma build_url_eight_chars_witness :
  _build_url "base/release"
    (hashes (PStr "1234567890abcdef") (PStr "abcd1234aaaa") (PStr "0011223344"))
  = _build_url "base/release"
      (hashes (PStr "1234567890abcdef") (PStr "abcd1234bbbb") (PStr "00112233")).
Proof.
  apply build_url_eight_chars; try discriminate; reflexivity.
Defined.

Lemma build_url_absolute_commit_witness :
  _build_url "base/release"
    (hashes (PStr "/1234567890abcdef") (PStr "abcd1234") (PStr "None"))
  = (PStr "/1234567890abcdef", Ok "/1234567890abcdef_abcd1234").
Proof.
  rewrite (build_url_absolute_commit "base/release" "/1234567890abcdef" "abcd1234"
             "None"); reflexivity.
Defined.

(** * Reading what was written *)

(** ** Replacing spaces in a written text *)

Lemma replace_space_underscored (t : string) : replace_space t = underscored t.
Proof.
  unfold replace_space. induction t as [|c t IH]; [reflexivity|].
  simpl. now rewrite IH.
Qed.

Lemma replace_space_append (a b : string) :
  replace_space (a +:+ b) = replace_space a +:+ replace_space b.
Proof.
  unfold replace_space. induction a as [|c a IH]; [reflexivity|].
  simpl. now rewrite IH.
Qed.

Lemma underscored_doubled_quotes (t : string) :
  replace_space (doubled_quotes t) = doubled_quotes (underscored t).
Proof.
  unfold replace_space. induction t as [|c t IH]; [reflexivity|]. simpl.
  destruct (Ascii.eqb_spec c "034") as [->|Hq]; simpl; [now rewrite IH|].
  destruct (Ascii.eqb_spec c " ") as [->|Hs]; simpl; [now rewrite IH|].
  destruct (Ascii.eqb_spec c "034"); [contradiction|]. now rewrite IH.
Qed.

Lemma replace_space_cell (c : written) :
  replace_space (write_cell c) = write_cell (underscored_cell c).
Proof.
  destruct c as [t|t]; [apply replace_space_underscored|].
  unfold write_cell, underscored_cell, dquote.
  rewrite !replace_space_append, underscored_doubled_quotes.
  reflexivity.
Qed.

Lemma replace_space_line (cells : list written) :
  replace_space (write_line cells) = write_line (underscored_cell <$> cells).
Proof.
  induction cells as [|c [|c' cells] IH]; [reflexivity| |].
  - apply replace_space_cell.
  - change (write_line (c :: c' :: cells))
      with (write_cell c +:+ "," +:+ write_line (c' :: cells)).
    rewrite !replace_space_append, replace_space_cell, IH. reflexivity.
Qed.

Lemma replace_space_breaks (e : string) :
  str_forallb line_break_char e = true -> replace_space e = e.
Proof.
  unfold replace_space. induction e as [|c e IH]; [reflexivity|]. simpl.
  intros [Hc He]%andb_prop. rewrite (IH He).
  destruct (Ascii.eqb_spec c " ") as [->|_]; [discriminate | reflexivity].
Qed.

Lemma replace_space_text (eol last : string) (lines : list (list written)) :
  str_forallb line_break_char eol = true ->
  str_forallb line_break_char last = true ->
  replace_space (write_text eol last lines)
  = write_text eol last
      ((fun l : list written => underscored_cell <$> l) <$> lines).
Proof.
  intros He Hl. induction lines as [|l [|l' lines] IH]; [reflexivity| |].
  - change (write_text eol last [l]) with (write_line l +:+ last).
    now rewrite replace_space_append, replace_space_line,
      (replace_space_breaks _ Hl).
  - change (write_text eol last (l :: l' :: lines))
      with (write_line l +:+ eol +:+ write_text eol last (l' :: lines)).
    rewrite !replace_space_append, replace_space_line,
      (replace_space_breaks _ He), IH.
    reflexivity.
Qed.

(** ** The characters of a written cell after the replacement *)

Lemma cell_char_underscored (c : ascii) :
  cell_char c = true ->
  quoted_read_char (if Ascii.eqb c " " then "_"%char else c) = true.
Proof.
  destruct c as [[] [] [] [] [] [] [] []]; vm_compute; intros H;
    first [reflexivity | discriminate H].
Qed.

Lemma plain_cell_char_underscored (c : ascii) :
  plain_cell_char c = true ->
  plain_read_char (if Ascii.eqb c " " then "_"%char else c) = true.
Proof.
  destruct c as [[] [] [] [] [] [] [] []]; vm_compute; intros H;
    first [reflexivity | discriminate H].
Qed.

Lemma line_break_is_space (c : ascii) :
  line_break_char c = true -> is_space c = true.
Proof.
  destruct c as [[] [] [] [] [] [] [] []]; vm_compute; intros H;
    first [reflexivity | discriminate H].
Qed.

Lemma str_forallb_underscored (p q : ascii -> bool) (t : string) :
  (forall c, p c = true -> q (if Ascii.eqb c " " then "_"%char else c) = true) ->
  str_forallb p t = true -> str_forallb q (underscored t) = true.
Proof.
  intros Hpq. induction t as [|c t IH]; [reflexivity|]. simpl.
  intros [Hc Ht]%andb_prop. now rewrite (Hpq _ Hc), IH.
Qed.

Lemma length_underscored (t : string) :
  String.length (underscored t) = String.length t.
Proof. induction t as [|c t IH]; [reflexivity|]. simpl. now rewrite IH. Qed.

Lemma read_ok_underscored (c : written) :
  well_written_cell c = true -> read_ok (underscored_cell c) = true.
Proof.
  unfold well_written_cell, read_ok. intros [Hchars Hlen]%andb_prop.
  apply andb_true_intro. split.
  - destruct c as [t|t]; simpl in *.
    + revert Hchars. apply str_forallb_underscored, plain_cell_char_underscored.
    + revert Hchars. apply str_forallb_underscored, cell_char_underscored.
  - destruct c as [t|t]; unfold within_limit in *; simpl in *;
      now rewrite length_underscored.
Qed.

(** ** The reader on a written line *)

Lemma process_line_app (a b : string) :
  forall r : csv.ReaderObj,
    csv.process_line r (a +:+ b)
    = (let? r' := csv.process_line r a in csv.process_line r' b).
Proof.
  induction a as [|c a IH]; intros r; [reflexivity|]. simpl.
  destruct (Ascii.eqb c "000"); [reflexivity|].
  destruct (csv.parse_process_char r (Some c)) as [r1|e]; [apply IH|reflexivity].
Qed.

Lemma within_limit_room (f rest : string) (c : ascii) :
  within_limit (f +:+ String c rest) = true ->
  (csv.field_limit <=? N.of_nat (String.length f))%N = false.
Proof. apply cell_fits_room. Qed.

Lemma plain_read_char_facts (c : ascii) :
  plain_read_char c = true ->
  csv.is_delimiter c = false /\ csv.is_quotechar c = false
  /\ Ascii.eqb c "000" = false /\ csv.is_crlf c = false.
Proof.
  unfold plain_read_char.
  intros [[[Hd Hq]%andb_prop Hn]%andb_prop Hs]%andb_prop.
  rewrite !negb_true_iff in *. repeat split; try assumption.
  destruct (csv.is_crlf c) eqn:E; [|reflexivity].
  apply crlf_is_space in E. unfold not_space in Hs. now rewrite E in Hs.
Qed.

(** A plain cell is added to the field character by character. *)
Lemma plain_run (t : string) :
  forall r : csv.ReaderObj,
    csv.state r = csv.START_FIELD \/ csv.state r = csv.IN_FIELD ->
    str_forallb plain_read_char t = true ->
    within_limit (csv.field r +:+ t) = true ->
    exists r',
      csv.process_line r t = Ok r'
      /\ (csv.state r' = csv.START_FIELD \/ csv.state r' = csv.IN_FIELD)
      /\ csv.fields r' = csv.fields r
      /\ csv.field r' = csv.field r +:+ t.
Proof.
  induction t as [|c t IH]; intros r Hst Hchars Hlen.
  - exists r. simpl. now rewrite append_empty_r.
  - simpl in Hchars. apply andb_prop in Hchars as [Hc Hchars].
    destruct (plain_read_char_facts c Hc) as (Hd & Hq & Hnul & Hcrlf).
    set (r1 := {| csv.state := csv.IN_FIELD; csv.fields := csv.fields r;
                  csv.field := csv.field r +:+ String c "" |}).
    assert (csv.parse_process_char r (Some c) = Ok r1) as Hstep.
    { unfold csv.parse_process_char, csv.parse_add_char.
      destruct Hst as [Hs | Hs]; rewrite Hs; simpl;
        rewrite ?Hcrlf, ?Hq, ?Hd, (within_limit_room _ _ _ Hlen); reflexivity. }
    destruct (IH r1) as (r' & Hrun & Hst' & Hfields & Hfield).
    + now right.
    + exact Hchars.
    + simpl. rewrite append_assoc. exact Hlen.
    + exists r'. simpl. rewrite Hnul, Hstep. simpl.
      split; [exact Hrun|]. split; [exact Hst'|]. split; [exact Hfields|].
      rewrite Hfield. simpl. now rewrite append_assoc.
Qed.

(** Inside the quotes every character is added, a doubled quote once. *)
Lemma quoted_run (t : string) :
  forall r : csv.ReaderObj,
    csv.state r = csv.IN_QUOTED_FIELD ->
    str_forallb quoted_read_char t = true ->
    within_limit (csv.field r +:+ t) = true ->
    exists r',
      csv.process_line r (doubled_quotes t) = Ok r'
      /\ csv.state r' = csv.IN_QUOTED_FIELD
      /\ csv.fields r' = csv.fields r
      /\ csv.field r' = csv.field r +:+ t.
Proof.
  induction t as [|c t IH]; intros r Hst Hchars Hlen.
  - exists r. simpl. now rewrite append_empty_r.
  - simpl in Hchars. apply andb_prop in Hchars as [Hc Hchars].
    unfold quoted_read_char in Hc. apply andb_prop in Hc as [Hnul _].
    apply negb_true_iff in Hnul.
    set (r1 := {| csv.state := csv.IN_QUOTED_FIELD; csv.fields := csv.fields r;
                  csv.field := csv.field r +:+ String c "" |}).
    assert (csv.process_line r (doubled_quotes (String c t))
            = csv.process_line r1 (doubled_quotes t)) as ->.
    { simpl. destruct (Ascii.eqb c "034") eqn:Hq.
      - apply Ascii.eqb_eq in Hq. subst c. simpl.
        unfold csv.parse_process_char at 1. rewrite Hst. simpl.
        unfold csv.parse_process_char at 1. simpl.
        unfold csv.parse_add_char. simpl.
        now rewrite (within_limit_room _ _ _ Hlen).
      - simpl. rewrite Hnul. unfold csv.parse_process_char at 1.
        rewrite Hst. unfold csv.is_quotechar. rewrite Hq.
        unfold csv.parse_add_char.
        rewrite (within_limit_room _ _ _ Hlen), Hst. reflexivity. }
    destruct (IH r1) as (r' & Hrun & Hst' & Hfields & Hfield).
    + reflexivity.
    + exact Hchars.
    + simpl. rewrite append_assoc. exact Hlen.
    + exists r'. split; [exact Hrun|]. split; [exact Hst'|].
      split; [exact Hfields|]. rewrite Hfield. simpl. now rewrite append_assoc.
Qed.

(** A written cell, read from the start of a field, leaves its token in the
    field. *)
Lemma cell_run (c : written) (r : csv.ReaderObj) :
  csv.state r = csv.START_FIELD -> csv.field r = "" ->
  read_ok c = true ->
  exists r',
    csv.process_line r (write_cell c) = Ok r'
    /\ cell_end r'
    /\ csv.fields r' = csv.fields r
    /\ csv.field r' = cell_text c.
Proof.
  intros Hst Hf. unfold read_ok. intros [Hchars Hlen]%andb_prop.
  destruct c as [t|t]; simpl in Hchars, Hlen.
  - destruct (plain_run t r) as (r' & Hrun & Hst' & Hfields & Hfield).
    + now left.
    + exact Hchars.
    + now rewrite Hf.
    + exists r'. split; [exact Hrun|]. split.
      * destruct Hst' as [?|?]; [now left | now right; left].
      * split; [exact Hfields|]. now rewrite Hfield, Hf.
  - set (r1 := csv.with_state csv.IN_QUOTED_FIELD r).
    destruct (quoted_run t r1) as (r' & Hrun & Hst' & Hfields & Hfield).
    + reflexivity.
    + exact Hchars.
    + simpl. now rewrite Hf.
    + exists (csv.with_state csv.QUOTE_IN_QUOTED_FIELD r').
      unfold write_cell, dquote.
      change (String "034" "" +:+ doubled_quotes t +:+ String "034" "")
        with (String "034" (doubled_quotes t +:+ String "034" "")).
      cbn [csv.process_line]. 
      change (Ascii.eqb "034" "000") with false. cbv iota.
      assert (csv.parse_process_char r (Some "034"%char) = Ok r1) as ->.
      { unfold csv.parse_process_char. rewrite Hst. reflexivity. }
      cbn [res_bind]. rewrite process_line_app, Hrun. cbn [res_bind].
      cbn [csv.process_line]. change (Ascii.eqb "034" "000") with false.
      cbv iota.
      assert (csv.parse_process_char r' (Some "034"%char)
              = Ok (csv.with_state csv.QUOTE_IN_QUOTED_FIELD r')) as ->.
      { unfold csv.parse_process_char. rewrite Hst'. reflexivity. }
      split; [reflexivity|]. split; [now right; right|].
      split; [exact Hfields|]. simpl. rewrite Hfield. subst r1. simpl.
      now rewrite Hf.
Qed.

(** After a cell, a comma and the end of the line both save the field. *)
Lemma after_cell (r : csv.ReaderObj) :
  cell_end r ->
  csv.parse_process_char r (Some ","%char)
  = Ok {| csv.state := csv.START_FIELD;
          csv.fields := csv.fields r ++ [csv.field r]; csv.field := "" |}
  /\ csv.parse_process_char r None
     = Ok {| csv.state := csv.START_RECORD;
             csv.fields := csv.fields r ++ [csv.field r]; csv.field := "" |}.
Proof.
  unfold cell_end, csv.parse_process_char, csv.parse_save_field, csv.with_state.
  intros [Hs|[Hs|Hs]]; rewrite Hs; simpl; try rewrite Hs; split; reflexivity.
Qed.

Lemma line_run (cells : list written) :
  forall r : csv.ReaderObj,
    cells <> [] ->
    csv.state r = csv.START_FIELD -> csv.field r = "" ->
    forallb read_ok cells = true ->
    exists r',
      csv.process_line r (write_line cells) = Ok r'
      /\ cell_end r'
      /\ csv.fields r' ++ [csv.field r']
         = csv.fields r ++ (cell_text <$> cells).
Proof.
  induction cells as [|c [|c' cells] IH]; intros r Hne Hst Hf Hok;
    [contradiction| |].
  - simpl in Hok. apply andb_prop in Hok as [Hc _].
    destruct (cell_run c r Hst Hf Hc) as (r' & Hrun & Hend & Hfields & Hfield).
    exists r'. split; [exact Hrun|]. split; [exact Hend|].
    now rewrite Hfields, Hfield.
  - change (forallb read_ok (c :: c' :: cells))
      with (read_ok c && forallb read_ok (c' :: cells)) in Hok.
    apply andb_prop in Hok as [Hc Hok].
    destruct (cell_run c r Hst Hf Hc) as (r1 & Hrun & Hend & Hfields & Hfield).
    destruct (after_cell r1 Hend) as [Hcomma _].
    destruct (IH {| csv.state := csv.START_FIELD;
                    csv.fields := csv.fields r1 ++ [csv.field r1];
                    csv.field := "" |})
      as (r' & Hrun' & Hend' & Hfields'); try reflexivity;
      [discriminate | exact Hok |].
    exists r'.
    change (write_line (c :: c' :: cells))
      with (write_cell c +:+ String "," (write_line (c' :: cells))).
    rewrite process_line_app, Hrun. cbn [res_bind csv.process_line].
    change (Ascii.eqb "," "000") with false. cbv iota.
    rewrite Hcomma. cbn [res_bind].
    split; [exact Hrun'|]. split; [exact Hend'|].
    rewrite Hfields'. cbn [csv.fields]. rewrite Hfields, Hfield.
    now rewrite <- app_assoc.
Qed.

Lemma not_space_not_crlf (c : ascii) : not_space c = true -> csv.is_crlf c = false.
Proof.
  unfold not_space. intros H. destruct (csv.is_crlf c) eqn:E; [|reflexivity].
  apply crlf_is_space in E. now rewrite E in H.
Qed.

(** A written line is one record: the tokens of its cells. *)
Lemma record_run (cells : list written) :
  write_line cells <> "" ->
  str_forallb not_space (write_line cells) = true ->
  forallb read_ok cells = true ->
  (let? r1 := csv.process_line csv.parse_reset (write_line cells) in
   csv.parse_process_char r1 None)
  = Ok {| csv.state := csv.START_RECORD; csv.fields := cell_text <$> cells;
          csv.field := "" |}.
Proof.
  intros Hne Hchars Hok.
  assert (csv.process_line csv.parse_reset (write_line cells)
          = csv.process_line (csv.with_state csv.START_FIELD csv.parse_reset)
              (write_line cells)) as ->.
  { destruct (write_line cells) as [|c line]; [contradiction|].
    simpl in Hchars. apply andb_prop in Hchars as [Hc _].
    apply not_space_not_crlf in Hc.
    simpl. unfold csv.parse_process_char. simpl. now rewrite Hc. }
  destruct (line_run cells (csv.with_state csv.START_FIELD csv.parse_reset))
    as (r' & -> & Hend & Hfields); try reflexivity; [|exact Hok|].
  - intros ->. now apply Hne.
  - cbn [res_bind]. destruct (after_cell r' Hend) as [_ ->].
    now rewrite Hfields.
Qed.

(** ** Splitting a written text *)

Lemma split_on_seps (sep : ascii -> bool) (e b : string) :
  str_forallb sep e = true -> split_on sep (e +:+ b) = split_on sep b.
Proof.
  induction e as [|c e IH]; [reflexivity|]. simpl.
  intros [Hc He]%andb_prop. specialize (IH He).
  unfold split_on in *. simpl. rewrite Hc.
  destruct (split_run sep (e +:+ b)) as [t ts]. exact IH.
Qed.

Lemma split_run_seps (sep : ascii -> bool) (e b : string) :
  str_forallb sep e = true -> e <> "" \/ b = "" ->
  split_run sep (e +:+ b) = ("", split_on sep b).
Proof.
  intros He Hor. destruct e as [|c e].
  - destruct Hor as [?| ->]; [contradiction | reflexivity].
  - simpl in He. apply andb_prop in He as [Hc He].
    pose proof (split_on_seps sep e b He) as H. unfold split_on in H.
    simpl. rewrite Hc. destruct (split_run sep (e +:+ b)) as [t ts].
    now rewrite H.
Qed.

Lemma split_run_token (sep : ascii -> bool) (a x : string) :
  str_forallb (fun c => negb (sep c)) a = true ->
  split_run sep (a +:+ x)
  = (a +:+ (split_run sep x).1, (split_run sep x).2).
Proof.
  induction a as [|c a IH]; [simpl; now destruct (split_run sep x)|]. simpl.
  intros [Hc Ha]%andb_prop. rewrite (IH Ha).
  apply negb_true_iff in Hc. now rewrite Hc.
Qed.

(** A token, then separators, then the rest. *)
Lemma split_on_token (sep : ascii -> bool) (a e b : string) :
  a <> "" -> str_forallb (fun c => negb (sep c)) a = true ->
  str_forallb sep e = true -> e <> "" \/ b = "" ->
  split_on sep (a +:+ e +:+ b) = a :: split_on sep b.
Proof.
  intros Hne Ha He Hor. unfold split_on at 1.
  rewrite (split_run_token sep a _ Ha), (split_run_seps sep e b He Hor).
  simpl. rewrite append_empty_r. now destruct a.
Qed.

Lemma py_split_written (eol last : string) (lines : list string) :
  eol <> "" ->
  str_forallb is_space eol = true -> str_forallb is_space last = true ->
  Forall (fun l => l <> "" /\ str_forallb not_space l = true) lines ->
  py_split
    ((fix text (ls : list string) : string :=
        match ls with
        | [] => ""
        | [l] => l +:+ last
        | l :: ls' => l +:+ eol +:+ text ls'
        end) lines)
  = lines.
Proof.
  intros Hne He Hl Hlines. unfold py_split.
  induction Hlines as [|l lines [Hl0 Hl1] Hlines IH]; [reflexivity|].
  destruct lines as [|l' lines].
  - rewrite <- (append_empty_r (l +:+ last)), append_assoc.
    rewrite (split_on_token is_space l last "" Hl0 Hl1 Hl); [reflexivity|].
    now right.
  - rewrite (split_on_token is_space l eol _ Hl0 Hl1 He); [|now left].
    f_equal. exact IH.
Qed.

(** A written text is that fixed point over its written lines. *)
Lemma write_text_lines (eol last : string) (lines : list (list written)) :
  write_text eol last lines
  = (fix text (ls : list string) : string :=
       match ls with
       | [] => ""
       | [l] => l +:+ last
       | l :: ls' => l +:+ eol +:+ text ls'
       end) (map write_line lines).
Proof.
  induction lines as [|l [|l' lines] IH]; [reflexivity|reflexivity|].
  change (write_text eol last (l :: l' :: lines))
    with (write_line l +:+ eol +:+ write_text eol last (l' :: lines)).
  rewrite IH. reflexivity.
Qed.

(** ** The lines of a written table *)

Lemma str_forallb_doubled_quotes (p : ascii -> bool) (t : string) :
  p "034"%char = true -> str_forallb p t = true ->
  str_forallb p (doubled_quotes t) = true.
Proof.
  intros Hq. induction t as [|c t IH]; [reflexivity|]. simpl.
  intros [Hc Ht]%andb_prop.
  destruct (Ascii.eqb_spec c "034") as [->|_]; simpl; now rewrite ?Hq, ?Hc, IH.
Qed.

Lemma write_cell_no_space (c : written) :
  read_ok c = true -> str_forallb not_space (write_cell c) = true.
Proof.
  unfold read_ok. intros [Hchars _]%andb_prop. destruct c as [t|t]; simpl.
  - revert Hchars. apply str_forallb_impl. intros c. unfold plain_read_char.
    now intros [_ ?]%andb_prop.
  - unfold dquote. rewrite !str_forallb_append.
    rewrite str_forallb_doubled_quotes; [reflexivity|reflexivity|].
    revert Hchars. apply str_forallb_impl. intros c. unfold quoted_read_char.
    now intros [_ ?]%andb_prop.
Qed.

Lemma write_line_no_space (cells : list written) :
  forallb read_ok cells = true ->
  str_forallb not_space (write_line cells) = true.
Proof.
  induction cells as [|c [|c' cells] IH]; intros Hok; [reflexivity| |].
  - simpl in Hok. apply andb_prop in Hok as [Hc _].
    now apply write_cell_no_space.
  - change (forallb read_ok (c :: c' :: cells))
      with (read_ok c && forallb read_ok (c' :: cells)) in Hok.
    apply andb_prop in Hok as [Hc Hok].
    change (write_line (c :: c' :: cells))
      with (write_cell c +:+ "," +:+ write_line (c' :: cells)).
    rewrite !str_forallb_append, (write_cell_no_space c Hc), (IH Hok).
    reflexivity.
Qed.

(** What the reader and the splitting need of a line. *)
Lemma well_written_line_read (cells : list written) :
  well_written_line cells = true ->
  write_line (underscored_cell <$> cells) <> ""
  /\ forallb read_ok (underscored_cell <$> cells) = true.
Proof.
  unfold well_written_line. intros [Hne Hcells]%andb_prop. split.
  - rewrite <- replace_space_line. apply negb_true_iff, String.eqb_neq in Hne.
    intros H. apply Hne. clear -H. unfold replace_space in H.
    now destruct (write_line cells).
  - rewrite forallb_forall in Hcells. apply forallb_forall. intros c Hin.
    apply list_elem_of_In, list_elem_of_fmap in Hin as (c0 & -> & Hin).
    now apply read_ok_underscored, Hcells, list_elem_of_In.
Qed.

Lemma reader_written (lines : list (list written)) :
  Forall (fun cells => write_line cells <> ""
                       /\ forallb read_ok cells = true) lines ->
  csv.reader (map write_line lines) = (map (fmap cell_text) lines, None).
Proof.
  unfold csv.reader. induction 1 as [|cells lines [Hne Hok] _ IH];
    [reflexivity|].
  simpl. rewrite (record_run cells Hne (write_line_no_space cells Hok) Hok).
  simpl. now rewrite IH.
Qed.

Lemma cell_text_underscored (cells : list written) :
  cell_text <$> (underscored_cell <$> cells)
  = (fun c => underscored (cell_text c)) <$> cells.
Proof.
  rewrite <- list_fmap_compose. apply list_fmap_ext. now intros i [t|t].
Qed.

Lemma filter_nonempty_written (rows : list (list written)) :
  Forall (fun cells => write_line cells <> ""
                       /\ forallb read_ok cells = true) rows ->
  List.filter csv.nonempty_record (map (fmap cell_text) rows)
  = map (fmap cell_text) rows.
Proof.
  induction 1 as [|cells rows [Hne _] _ IH]; [reflexivity|].
  cbn [map List.filter]. destruct cells as [|c cells]; [now destruct Hne|].
  cbn [fmap list_fmap csv.nonempty_record]. now rewrite IH.
Qed.

Lemma rows_written (header : list written) (data : list (list written)) :
  NoDup ((fun c => underscored (cell_text c)) <$> header) ->
  forallb (fun row => well_written_line row
                      && (length row =? length header)%nat) data = true ->
  map (csv.dict_row ((fun c => underscored (cell_text c)) <$> header))
    (map (fmap cell_text)
       ((fun l : list written => underscored_cell <$> l) <$> data))
  = map (written_row header) data.
Proof.
  intros Hnd. induction data as [|row data IH]; intros Hd; [reflexivity|].
  simpl in Hd. apply andb_prop in Hd as [Hrow Hd].
  apply andb_prop in Hrow as [_ Hlen]. apply Nat.eqb_eq in Hlen.
  cbn [fmap list_fmap map]. f_equal; [|now apply IH].
  rewrite cell_text_underscored, dict_row_spec.
  - reflexivity.
  - exact Hnd.
  - now rewrite !length_fmap.
Qed.

(** C6.  Take any well-formed CSV text: a header line and data lines of
    plain or quoted cells (a quoted cell may hold commas, and double quotes
    written twice), as many cells in every data line as in the header, the
    header tokens distinct, the cells separated by commas and the lines by
    line breaks of CR and LF, with or without a break after the last line;
    no cell holds NUL or white space other than spaces.  When the text is
    fetched, the row parser yields, without raising, exactly one mapping per
    data line, in order: the mapping from the header tokens to the cell
    tokens of the line, every space of a token replaced by an underscore. *)
Theorem parse_csv_written (net : network) (u : string) (self : DlrnHttpData)
  (eol last : string) (header : list written) (data : list (list written)) :
  well_written_table eol last header data = true ->
  net u = Response 200 (write_text eol last (header :: data)) ->
  (_parse_csv net u self).2 = Ok (map (written_row header) data, None).
Proof.
  unfold well_written_table.
  intros [[[[[Hne He]%andb_prop Hl]%andb_prop Hh]%andb_prop Hd]%andb_prop Hnd]%andb_prop
    Hnet.
  apply negb_true_iff, String.eqb_neq in Hne. apply bool_decide_eq_true in Hnd.
  rewrite parse_csv_result. unfold csv_rows. rewrite Hnet.
  change (200 =? 200)%Z with true. cbv iota. f_equal.
  rewrite (replace_space_text eol last _ He Hl), write_text_lines.
  (* the lines of the text after the replacement *)
  set (lines := (fun l : list written => underscored_cell <$> l)
                  <$> (header :: data)).
  assert (Forall (fun cells => write_line cells <> ""
                               /\ forallb read_ok cells = true) lines) as Hlines.
  { subst lines. apply Forall_fmap, Forall_cons. split.
    - now apply well_written_line_read.
    - apply Forall_forall. intros row Hin. apply well_written_line_read.
      rewrite forallb_forall in Hd. apply list_elem_of_In, Hd in Hin.
      now apply andb_prop in Hin as [? _]. }
  rewrite py_split_written.
  - unfold csv.DictReader. rewrite (reader_written lines Hlines).
    subst lines. rewrite fmap_cons in Hlines.
    apply Forall_cons_1 in Hlines as [_ Hrows].
    cbn [fmap list_fmap map]. f_equal.
    rewrite (filter_nonempty_written _ Hrows), cell_text_underscored.
    now apply rows_written.
  - exact Hne.
  - revert He. apply str_forallb_impl, line_break_is_space.
  - revert Hl. apply str_forallb_impl, line_break_is_space.
  - apply Forall_forall. intros l Hin.
    apply list_elem_of_In, in_map_iff in Hin as (cells & <- & Hin).
    rewrite Forall_forall in Hlines.
    destruct (Hlines cells) as [Hc Hok]; [now apply list_elem_of_In|].
    split; [exact Hc | now apply write_line_no_space].
Qed.

Lemma parse_csv_written_witness :
  (_parse_csv (one_file "base/release/versions.csv" packages_csv)
     "base/release/versions.csv"
     (constructed "SUCCESS" (PStr "1234567890abcdef"))).2
  = Ok ([ {[ Some "Project" := CStr "foo";
             Some "Source_Sha" := CStr "aa11";
             Some "Pkg_NVR" := CStr "foo_1.0,_el9" ]};
          {[ Some "Project" := CStr "bar_baz";
             Some "Source_Sha" := CStr "";
             Some "Pkg_NVR" := CStr (dquote +:+ "x" +:+ dquote) ]} ],
        None).
Proof.
  etransitivity.
  - apply (parse_csv_written (one_file "base/release/versions.csv" packages_csv)
             "base/release/versions.csv"
             (constructed "SUCCESS" (PStr "1234567890abcdef"))
             nl nl packages_header packages_data);
      vm_compute; reflexivity.
  - vm_compute. reflexivity.
Defined.
